(** * hypnogram: a shallow embedding of [hypnogram/hypnogram.py]

    A hypnogram is a pandas [DataFrame] whose rows are scored bouts.  The
    embedding keeps the shape of the Python code:

    - a row is an index label together with the four columns [state],
      [start_time], [end_time] and [duration];
    - time stamps and durations are integers ([Z]): pandas stores a
      [Timestamp] and a [Timedelta] as a 64-bit count of nanoseconds, and
      the methods only add, subtract and compare them.  A column holds no
      [NaT].  The running sum of [keep_first] and [keep_last] is numpy's and
      wraps around at 64 bits.  A difference of two time stamps is taken
      exact, as it is while it fits in 64 bits, and so is the sum of a
      column, which pandas accumulates in binary64 and which is exact while
      the absolute values add up to at most 2^53.  The
      queries of the base class only compare times, so that the seconds of
      a [FloatHypnogram] are read the same way;
    - a boolean mask is a [list bool], an array of positions a [list nat];
    - a Python exception is a [Raise] in the [result] monad;
    - the quotient of two durations is a binary64 floating-point number,
      computed by the operations of [SpecFloat], the specification of
      IEEE 754 arithmetic of the Standard Library; [frac] is the exact value
      ([Q]) of the number that is passed. *)

From Stdlib Require Import ZArith QArith Lia.
From Stdlib Require SpecFloat.
From stdpp Require Import base list strings sorting.

Local Open Scope Z_scope.

(** ** Exceptions and the [result] monad *)

Inductive exn : Set :=
  | AssertionError
  | AttributeError
  | IndexError
  | ZeroDivisionError.

Inductive result (A : Type) : Type :=
  | Ok (a : A)
  | Raise (e : exn).
Arguments Ok {A} a.
Arguments Raise {A} e.

#[global] Instance result_ret : MRet result := fun A a => Ok a.
#[global] Instance result_bind : MBind result := fun A B f m =>
  match m with
  | Ok a => f a
  | Raise e => Raise e
  end.

(** ** Binary floating point *)

(** Python's [float] is an IEEE 754 binary64 number: 53 bits of precision,
    exponents below 1024, every operation rounded to nearest, ties to
    even. *)
Abbreviation float := SpecFloat.spec_float.

(** [float(n)] of an integer. *)
Definition float_of_int (n : Z) : float := SpecFloat.binary_normalize 53 1024 n 0 false.

(** The exact value of the finite float with sign [s], mantissa [m] and
    exponent [e]. *)
Definition float_value (s : bool) (m : positive) (e : Z) : Q :=
  let v := match e with
           | Z0 => inject_Z (Zpos m)
           | Zpos p => inject_Z (Zpos m * 2 ^ Zpos p)
           | Zneg p => Qmake (Zpos m) (2 ^ p)
           end in
  if s then Qopp v else v.

(** [x >= frac] for a float [x] and a number of exact value [frac]; a
    [nan] compares false. *)
Definition float_ge (x : float) (frac : Q) : bool :=
  match x with
  | SpecFloat.S754_nan => false
  | SpecFloat.S754_infinity s => negb s
  | SpecFloat.S754_zero _ => Qle_bool frac 0
  | SpecFloat.S754_finite s m e => Qle_bool frac (float_value s m e)
  end.

(** ** Rows and frames *)

Record bout : Set := Bout {
  state : string;
  start_time : Z;
  end_time : Z;
  duration : Z
}.

(** A row of the frame: its index label and its columns. *)
Abbreviation row := (Z * bout)%type.
Abbreviation frame := (list (Z * bout)).

Definition index (f : frame) : list Z := f.*1.

(** [pd.DataFrame(records)]: the default [RangeIndex] 0, 1, ..., n-1. *)
Definition reindex (bs : list bout) : frame := imap (fun p b => (Z.of_nat p, b)) bs.
Definition DataFrame (bs : list bout) : frame := reindex bs.

(** [pd.to_timedelta(n, "s")] and milliseconds, as nanosecond counts. *)
Definition seconds (n : Z) : Z := n * 1000000000.
Definition millis (n : Z) : Z := n * 1000000.

(** ** Array primitives (numpy and pandas) *)

(** [arr[mask]] / [df[mask]] / [df.loc[mask]]: the entries where the mask
    is true, in order. *)
Fixpoint getitem_mask {A} (arr : list A) (mask : list bool) : list A :=
  match arr, mask with
  | a :: arr', m :: mask' =>
      if m then a :: getitem_mask arr' mask' else getitem_mask arr' mask'
  | _, _ => []
  end.

(** [arr[mask] = v]: overwrite the entries where the mask is true. *)
Fixpoint setitem_mask {A} (arr : list A) (mask : list bool) (v : A) : list A :=
  match arr, mask with
  | a :: arr', m :: mask' => (if m then v else a) :: setitem_mask arr' mask' v
  | _, _ => arr
  end.

(** The 64-bit integer that stands for [NaT], and a sum of two 64-bit
    integers as numpy computes it: modulo 2^64, read as a signed number. *)
Definition NaT : Z := - 2 ^ 63.
Definition wrap (z : Z) : Z := (z + 2 ^ 63) mod 2 ^ 64 - 2 ^ 63.

(** [series.cumsum()] on a column of durations: [np.cumsum] on their 64-bit
    counts. *)
Fixpoint cumsum_from (acc : Z) (l : list Z) : list Z :=
  match l with
  | [] => []
  | x :: l' => wrap (acc + x) :: cumsum_from (wrap (acc + x)) l'
  end.
Definition cumsum (l : list Z) : list Z := cumsum_from 0 l.

(** [a <= b] on two durations: false when one of them is [NaT]. *)
Definition timedelta_le (a b : Z) : bool :=
  negb (a =? NaT) && negb (b =? NaT) && (a <=? b).

(** [series.sum()] *)
Definition sum (l : list Z) : Z := foldr Z.add 0 l.

(** [series.max()] and [series.min()]; [None] stands for the missing value
    ([NaT], [nan]) that pandas returns on an empty series. *)
Definition series_max (l : list Z) : option Z :=
  match l with
  | [] => None
  | x :: l' => Some (foldr Z.max x l')
  end.
Definition series_min (l : list Z) : option Z :=
  match l with
  | [] => None
  | x :: l' => Some (foldr Z.min x l')
  end.

(** [series.is_monotonic_increasing]: non-decreasing. *)
Fixpoint is_monotonic_increasing (l : list Z) : bool :=
  match l with
  | a :: (b :: _) as l' => (a <=? b) && is_monotonic_increasing l'
  | _ => true
  end.

(** [df.iloc[i]] for one position. *)
Definition iloc (self : frame) (i : nat) : result bout :=
  match self !! i with
  | Some r => Ok r.2
  | None => Raise IndexError
  end.

(** [df.iloc[positions]] for an array of positions. *)
Fixpoint iloc_array (self : frame) (positions : list nat) : result frame :=
  match positions with
  | [] => Ok []
  | p :: ps =>
      match self !! p with
      | Some r => rs ← iloc_array self ps; Ok (r :: rs)
      | None => Raise IndexError
      end
  end.

(** [df.loc[i:j]]: label slice, both ends included.  On an index that
    increases (a [RangeIndex], or what a filter leaves of one) these are the
    rows whose label lies between [i] and [j].  On another index pandas
    slices by position or raises a [KeyError]; the statements on
    [get_consolidated] that depend on the slices assume that the labels
    increase, and then the rows between the two labels are the rows between
    their positions ([loc_positions]). *)
Definition loc (self : frame) (i j : Z) : frame :=
  List.filter (fun r => (i <=? r.1) && (r.1 <=? j)) self.

(** [x in states] *)
Definition isin (states : list string) (s : string) : bool :=
  existsb (String.eqb s) states.

(** ** class Hypnogram(pd.DataFrame) *)

Module Hypnogram.

(** A frame as the constructor receives it: named columns, any names. *)
Inductive cell : Set :=
  | Str (s : string)
  | Num (z : Z).
Abbreviation table := (list (string * list cell)).
Definition columns (t : table) : list string := t.*1.

Definition required : list string :=
  ["state"; "start_time"; "end_time"; "duration"]%string.

(** [required.issubset(self)]: iterating a frame yields its column names. *)
Definition issubset (a b : list string) : bool :=
  forallb (fun x => existsb (String.eqb x) b) a.

(** [__init__] hands its arguments to [pd.DataFrame.__init__] and does
    nothing else. *)
Definition __init__ (data : table) : result table := Ok data.

Definition _validate (self : table) : result unit :=
  if negb (issubset required (columns self)) then Raise AttributeError
  else Ok tt.

Definition keep_states (self : frame) (states : list string) : frame :=
  getitem_mask self (map (fun r => isin states (state r.2)) self).

(** [(times >= bout.start_time) & (times <= bout.end_time)] *)
Definition times_in_bout (b : bout) (times : list Z) : list bool :=
  map (fun t => (start_time b <=? t) && (t <=? end_time b)) times.

Definition mask_times_by_state (self : frame) (times : list Z)
    (states : list string) : list bool :=
  fold_left (fun mask r => setitem_mask mask (times_in_bout r.2 times) true)
    (keep_states self states) (replicate (length times) false).

(** The loop of [get_states] on at least one time.  (On an empty array
    the labels are an empty column of floats, and the assignment of a state
    to it raises a [ValueError] when the timeline has a bout.) *)
Definition get_states (self : frame) (times : list Z) : list string :=
  fold_left
    (fun labels r => setitem_mask labels (times_in_bout r.2 times) (state r.2))
    self (replicate (length times) ""%string).

Definition covers_time (self : frame) (times : list Z) : list bool :=
  fold_left (fun covered r => setitem_mask covered (times_in_bout r.2 times) true)
    self (replicate (length times) false).

End Hypnogram.

(** ** class DatetimeHypnogram(Hypnogram) *)

(** The dictionaries that [get_gaps] builds. *)
Module Gap.
Record dict : Set := Dict {
  start_time : Z;
  end_time : Z;
  duration : Z
}.

(** [gap.update({"state": fill_state})]: the dictionary gets its fourth
    key and is a complete record. *)
Definition update_state (g : dict) (fill_state : string) : bout :=
  Bout fill_state (start_time g) (end_time g) (duration g).
End Gap.

Module DatetimeHypnogram.

Definition keep_first (self : frame) (cumulative_duration : Z) : frame :=
  let keep := map (fun c => timedelta_le c cumulative_duration)
                  (cumsum (duration <$> self.*2)) in
  getitem_mask self keep.

Definition keep_last (self : frame) (cumulative_duration : Z) : frame :=
  let keep := map (fun c => timedelta_le c cumulative_duration)
                  (reverse (cumsum (reverse (duration <$> self.*2)))) in
  getitem_mask self keep.

(** Microseconds since midnight of a time stamp
    ([DatetimeIndex._get_time_micros]). *)
Definition time_micros (t : Z) : Z := (t mod 86400000000000) / 1000.

(** [mask.nonzero()[0]]: the positions where the mask is true. *)
Definition nonzero (mask : list bool) : list nat :=
  getitem_mask (seq 0 (length mask)) mask.

(** [DatetimeIndex(times).indexer_between_time(start_time, end_time)],
    both ends included; the window wraps over midnight when it starts
    after it ends.  The two bounds are microseconds since midnight. *)
Definition indexer_between_time (times : list Z) (start_micros end_micros : Z)
    : list nat :=
  let join_op := if start_micros <=? end_micros then andb else orb in
  nonzero (map (fun t => join_op (start_micros <=? time_micros t)
                                 (time_micros t <=? end_micros)) times).

(** [np.intersect1d(a, b)]: the sorted, unique values that are in both. *)
Definition intersect1d (a b : list nat) : list nat :=
  List.filter (fun p => existsb (Nat.eqb p) a && existsb (Nat.eqb p) b)
              (seq 0 (S (foldr Nat.max 0%nat a))).

Definition keep_between (self : frame) (start_time' end_time' : Z) : result frame :=
  let keep := intersect1d
    (indexer_between_time (start_time <$> self.*2) start_time' end_time')
    (indexer_between_time (end_time <$> self.*2) start_time' end_time') in
  iloc_array self keep.

Definition keep_longer (self : frame) (duration' : Z) : frame :=
  getitem_mask self (map (fun r => duration' <? duration r.2) self).

(** [a / b] on two [Timedelta]s is [a.value / float(b.value)]: both counts
    are converted to binary64, and the quotient is the floating-point
    quotient. *)
Definition true_divide (a b : Z) : result float :=
  if b =? 0 then Raise ZeroDivisionError
  else Ok (SpecFloat.SFdiv 53 1024 (float_of_int a) (float_of_int b)).

(** The two variables the loops of [get_consolidated] update. *)
Record search : Set := Search {
  k : Z;
  matches : list frame
}.

Section consolidated.
Variables (self bouts : frame) (frac : Q) (minimum_time : Z).

(** [for j in bouts.index[::-1]: ...], run on the list of the [j] still
    to come.  Every [break] returns the variables as they are. *)
Fixpoint for_j (i : Z) (js : list Z) (s : search) : result search :=
  match js with
  | [] => Ok s
  | j :: js' =>
      if j <? Z.max i (k s) then Ok s
      else
        let time_in_states :=
          Z.max (sum (duration <$> (loc bouts i j).*2)) (seconds 0) in
        if time_in_states <? minimum_time then Ok s
        else
          match series_max (end_time <$> (loc self i j).*2),
                series_min (start_time <$> (loc self i j).*2) with
          | Some e, Some b =>
              let total_time := e - b in
              ratio ← true_divide time_in_states total_time;
              if float_ge ratio frac
              then Ok {| k := j; matches := matches s ++ [loc self i j] |}
              else for_j i js' s
          | _, _ =>
              (* a missing total_time makes the quotient nan, and
                 [nan >= frac] is false *)
              for_j i js' s
          end
  end.

(** [for i in bouts.index: ...] *)
Fixpoint for_i (todo : list Z) (s : search) : result search :=
  match todo with
  | [] => Ok s
  | i :: todo' =>
      if i <=? k s then for_i todo' s
      else s' ← for_j i (reverse (index bouts)) s; for_i todo' s'
  end.
End consolidated.

Definition get_consolidated (self : frame) (states : list string) (frac : Q)
    (minimum_time : Z) : result (list frame) :=
  if negb (is_monotonic_increasing (start_time <$> self.*2))
  then Raise AssertionError
  else
    let bouts := Hypnogram.keep_states self states in
    match series_min (index bouts) with
    | None =>
        (* [bouts.index.min()] is nan and there is nothing to loop over *)
        Ok []
    | Some m =>
        s ← for_i self bouts frac minimum_time (index bouts)
              {| k := m - 1; matches := [] |};
        Ok (matches s)
    end.

(** [for i in range(len(self) - 1): ...] of [get_gaps], on the list of the
    [i] still to come. *)
Fixpoint for_gaps (self : frame) (tolerance : Z) (todo : list nat)
    (gaps : list Gap.dict) : result (list Gap.dict) :=
  match todo with
  | [] => Ok gaps
  | i :: todo' =>
      current ← iloc self i;
      next ← iloc self (i + 1);
      let current_bout_end := end_time current in
      let next_bout_start := start_time next in
      let gap := next_bout_start - current_bout_end in
      if tolerance <? gap
      then for_gaps self tolerance todo'
             (gaps ++ [Gap.Dict current_bout_end next_bout_start gap])
      else for_gaps self tolerance todo' gaps
  end.

Definition get_gaps (self : frame) (tolerance : Z) : result (list Gap.dict) :=
  for_gaps self tolerance (seq 0 (length self - 1)) [].

(** [self.append(rows)]: a new frame, the rows of [self] followed by the
    new rows under their own default index. *)
Definition append (self : frame) (rows : list bout) : frame :=
  self ++ DataFrame rows.

(** [df.sort_values("start_time", ignore_index=True)]: the rows in
    non-decreasing order of [start_time], relabelled 0, 1, ...  The code
    passes no [kind], and numpy's default sort leaves rows with equal keys
    in an order of its own (it is an insertion sort, which keeps their
    order, up to 16 rows).  Rows with equal keys keep their relative order
    here; the statements that depend on their order assume that no two rows
    have the same [start_time], and then every sort returns the same
    frame, see [sorted_by_start_time]. *)
Fixpoint insert_row (r : row) (sorted : frame) : frame :=
  match sorted with
  | [] => [r]
  | r' :: rest =>
      if start_time r.2 <=? start_time r'.2 then r :: sorted
      else r' :: insert_row r rest
  end.
Definition sort_values_start_time (f : frame) : frame :=
  reindex (foldr insert_row [] f).*2.

Definition fill_gaps (self : frame) (tolerance : Z) (fill_state : string)
    : result frame :=
  gaps ← get_gaps self tolerance;
  let gaps := map (fun gap => Gap.update_state gap fill_state) gaps in
  Ok (sort_values_start_time (append self gaps)).

End DatetimeHypnogram.

(** ** Objects

    A method call [self.m(...)] reads the frame stored at the address
    [self].  None of the methods above assigns into [self]; each builds its
    result by indexing, [append] or [sort_values], which construct a new
    frame.  The result is therefore stored at a fresh address. *)

Abbreviation store := (list (list (Z * bout))).

Definition call (m : frame -> result frame) (self : nat) (h : store)
    : result (nat * store) :=
  out ← m (h !!! self);
  Ok (length h, h ++ [out]).

(** ** The words of the specification *)

(** A time lies in the closed interval of a bout. *)
Definition contains (b : bout) (t : Z) : Prop :=
  start_time b <= t <= end_time b.

Definition containsb (t : Z) (r : row) : bool :=
  (start_time r.2 <=? t) && (t <=? end_time r.2).

(** [label]: the state of the last bout, in sequence order, that contains
    the time; the empty label when there is none. *)
Definition label (self : frame) (t : Z) : string :=
  match last (List.filter (containsb t) self) with
  | Some r => state r.2
  | None => ""%string
  end.

(** [covers]: some bout contains the time. *)
Definition covers (self : frame) (t : Z) : bool := existsb (containsb t) self.

(** [findGaps]: one record per pair of consecutive bouts whose gap exceeds
    the tolerance. *)
Definition consecutive (self : frame) : list (bout * bout) :=
  zip self.*2 (tail self.*2).

Definition gap_between (pair : bout * bout) : Z :=
  start_time pair.2 - end_time pair.1.

Definition gap_of (current next : bout) : Gap.dict :=
  Gap.Dict (end_time current) (start_time next)
           (start_time next - end_time current).

Definition findGaps (self : frame) (tolerance : Z) : list Gap.dict :=
  (fun pair => gap_of pair.1 pair.2)
    <$> List.filter (fun pair => tolerance <? gap_between pair) (consecutive self).

(** The index range of a slice: its smallest and its largest label. *)
Definition index_range (f : frame) : option (Z * Z) :=
  match series_min (index f), series_max (index f) with
  | Some i, Some j => Some (i, j)
  | _, _ => None
  end.

(** [[i, j]] is a sub-range of [[i', j']]. *)
Definition sub_range (r r' : Z * Z) : Prop := r'.1 <= r.1 /\ r.2 <= r'.2.

(** What a filter owes: called on the object at [self] it returns, at a
    fresh address, a sub-sequence of the rows of [self], and the object at
    [self] is as it was. *)
Definition filters (m : frame -> result frame) : Prop :=
  forall (h : store) (self : nat) (f : frame),
    h !! self = Some f ->
    exists out h',
      call m self h = Ok (length h, h') /\
      h' !! self = Some f /\
      h' !! length h = Some out /\
      out `sublist_of` f /\
      (forall r, r ∈ out -> r ∈ f).

(** ** Timelines used in the examples *)

(** [(A, 0, 10), (B, 10, 10.5), (A, 10.5, 20)], in seconds. *)
Definition abA : frame := DataFrame
  [ Bout "A" (seconds 0) (seconds 10) (seconds 10);
    Bout "B" (seconds 10) (millis 10500) (millis 500);
    Bout "A" (millis 10500) (seconds 20) (millis 9500) ].

(** [(A, 0, 10), (B, 15, 20)], in seconds. *)
Definition a_gap_b : frame := DataFrame
  [ Bout "A" (seconds 0) (seconds 10) (seconds 10);
    Bout "B" (seconds 15) (seconds 20) (seconds 5) ].

(** One bout of five seconds. *)
Definition one_bout : frame := DataFrame
  [ Bout "A" (seconds 0) (seconds 5) (seconds 5) ].

(** Two bouts, the second starting before the first. *)
Definition unsorted : frame := DataFrame
  [ Bout "A" (seconds 10) (seconds 20) (seconds 10);
    Bout "A" (seconds 0) (seconds 10) (seconds 10) ].

(** A bout whose end precedes its start, followed by a regular bout. *)
Definition inverted : frame := DataFrame
  [ Bout "A" (seconds 10) (seconds 0) (seconds (-10));
    Bout "B" (seconds 20) (seconds 30) (seconds 10) ].

(** [(A, 0, 10), (B, 10, 30), (A, 30, 40)], in seconds. *)
Definition aBa : frame := DataFrame
  [ Bout "A" (seconds 0) (seconds 10) (seconds 10);
    Bout "B" (seconds 10) (seconds 30) (seconds 20);
    Bout "A" (seconds 30) (seconds 40) (seconds 10) ].

(** A bout of no length at 0, followed after a gap by a regular bout. *)
Definition instant : frame := DataFrame
  [ Bout "A" (seconds 0) (seconds 0) (seconds 0);
    Bout "B" (seconds 5) (seconds 10) (seconds 5) ].

(** Two bouts of 200 years (73049 days) each, from 1770 to 1970 and from
    1970 to 2170. *)
Definition centuries : frame := DataFrame
  [ Bout "A" (seconds (-6311433600)) (seconds 0) (seconds 6311433600);
    Bout "B" (seconds 0) (seconds 6311433600) (seconds 6311433600) ].

(** The columns [load_spike2_hypnogram] reads: there is no [duration]. *)
Definition spike2_table : Hypnogram.table :=
  [ ("start_time", [Hypnogram.Num 0]);
    ("end_time", [Hypnogram.Num 4]);
    ("state", [Hypnogram.Str "Wake"]) ]%string.

(** The four required columns. *)
Definition full_table : Hypnogram.table :=
  [ ("state", [Hypnogram.Str "Wake"]);
    ("start_time", [Hypnogram.Num 0]);
    ("end_time", [Hypnogram.Num 4]);
    ("duration", [Hypnogram.Num 4]) ]%string.

(** ** Auxiliary definitions of the proofs *)

(** What one time sees of one turn of the loop over the bouts, in
    [get_states] ([v] is the state of the bout) and in [covers_time] ([v] is
    [True]). *)
Definition visit {A} (v : row -> A) (t : Z) (acc : A) (r : row) : A :=
  if containsb t r then v r else acc.

(** [insert_row], seen on the columns alone. *)
Fixpoint insert_bout (b : bout) (sorted : list bout) : list bout :=
  match sorted with
  | [] => [b]
  | b' :: rest =>
      if start_time b <=? start_time b' then b :: sorted
      else b' :: insert_bout b rest
  end.

(** The bouts of a timeline with, after each bout that is followed by a gap
    above the tolerance, the bout that fills this gap. *)
Fixpoint interleave (bouts : list bout) (tolerance : Z) (fill_state : string)
    : list bout :=
  match bouts with
  | [] => []
  | a :: rest =>
      a :: match rest with
           | [] => []
           | b :: _ =>
               if tolerance <? start_time b - end_time a
               then [Gap.update_state (gap_of a b) fill_state]
               else []
           end ++ interleave rest tolerance fill_state
  end.

(** The invariant of the two loops of [get_consolidated]: the slices
    appended so far are the slices of index ranges [[i, j]] whose ends are
    labels of [bouts], that lie at or below [k], each entirely before the
    next. *)
Definition accepted (self bouts : frame) (s : DatetimeHypnogram.search)
    (ranges : list (Z * Z)) : Prop :=
  DatetimeHypnogram.matches s = (fun r => loc self r.1 r.2) <$> ranges /\
  Forall (fun r => r.1 <= r.2 /\ r.1 ∈ index bouts /\ r.2 ∈ index bouts /\
                   r.2 <= DatetimeHypnogram.k s) ranges /\
  StronglySorted (fun r r' => r.2 < r'.1) ranges.

(** * Further definitions *)

(** ** More words for the statements *)

(** The time of day of [t] lies in the window from [start_micros] to
    [end_micros], both included; a window that starts after it ends runs
    over midnight. *)
Definition between_time (start_micros end_micros t : Z) : bool :=
  if start_micros <=? end_micros
  then (start_micros <=? DatetimeHypnogram.time_micros t)
       && (DatetimeHypnogram.time_micros t <=? end_micros)
  else (start_micros <=? DatetimeHypnogram.time_micros t)
       || (DatetimeHypnogram.time_micros t <=? end_micros).

(** The two thresholds of [get_consolidated] on a period, a slice of the
    timeline: the time spent in the states, clamped at zero, reaches
    [minimum_time], and its floating-point quotient by the span of the
    period, from the earliest start to the latest end, reaches [frac]. *)
Definition consolidated (period : frame) (states : list string) (frac : Q)
    (minimum_time : Z) : Prop :=
  let time_in_states :=
    Z.max (sum (duration <$> (Hypnogram.keep_states period states).*2)) 0 in
  minimum_time <= time_in_states /\
  exists (e b : Z) (ratio : float),
    series_max (end_time <$> period.*2) = Some e /\
    series_min (start_time <$> period.*2) = Some b /\
    DatetimeHypnogram.true_divide time_in_states (e - b) = Ok ratio /\
    float_ge ratio frac = true.

(** The values of a timeline for which the arithmetic of the embedding is
    that of the code.  The durations add up, in absolute value, to at most
    2^53 ns: every sum of durations is then exact in the binary64
    accumulator of pandas.  The time stamps lie less than 2^62 ns from the
    epoch: the difference of two of them then fits in 64 bits. *)
Definition sums_exactly (self : frame) : Prop :=
  sum (Z.abs <$> (duration <$> self.*2)) <= 2 ^ 53.

Definition spans_fit (self : frame) : Prop :=
  Forall (fun r => - 2 ^ 62 < start_time r.2 < 2 ^ 62 /\
                   - 2 ^ 62 < end_time r.2 < 2 ^ 62) self.

(** What [sort_values("start_time", ignore_index=True)] returns of [f],
    whatever the sorting algorithm: the rows of [f], in an order in which
    [start_time] does not decrease, under the labels 0, 1, ... *)
Definition sorted_by_start_time (f g : frame) : Prop :=
  g.*2 ≡ₚ f.*2 /\
  Sorted Z.le (start_time <$> g.*2) /\
  index g = Z.of_nat <$> seq 0 (length g).

(** The running sums of a list, without the wrap-around of [cumsum]. *)
Fixpoint running_from (acc : Z) (l : list Z) : list Z :=
  match l with
  | [] => []
  | x :: l' => (acc + x) :: running_from (acc + x) l'
  end.

(** The invariant of the loops of [get_consolidated], with the thresholds:
    the slices appended so far are the slices of index ranges that meet the
    thresholds, whose ends are labels of the bouts of interest, that lie at
    or below [k], each entirely before the next; and no end that the inner
    loop tried before the one it took gives a slice that meets the
    thresholds. *)
Definition found (self : frame) (states : list string) (frac : Q)
    (minimum_time : Z) (s : DatetimeHypnogram.search) (ranges : list (Z * Z))
    : Prop :=
  DatetimeHypnogram.matches s = (fun r => loc self r.1 r.2) <$> ranges /\
  Forall (fun r =>
            r.1 <= r.2 /\
            r.1 ∈ index (Hypnogram.keep_states self states) /\
            r.2 ∈ index (Hypnogram.keep_states self states) /\
            r.2 <= DatetimeHypnogram.k s /\
            consolidated (loc self r.1 r.2) states frac minimum_time /\
            exists later earlier,
              reverse (index (Hypnogram.keep_states self states))
                = later ++ r.2 :: earlier /\
              Forall (fun j => ~ consolidated (loc self r.1 j) states frac
                                  minimum_time) later) ranges /\
  StronglySorted (fun r r' => r.2 < r'.1) ranges.

(** ** class FloatHypnogram(Hypnogram) and the functions of the module

    A [FloatHypnogram] holds seconds as binary floating-point numbers.  A
    finite float is an integer multiple of 2^-1074, so the [Z] of a time on
    this axis counts this unit: values and comparisons are exact.  A
    difference of two floats is rounded, and so is the conversion of seconds
    to the nanoseconds of a [Timedelta]; these two operations are
    parameters, [fsub] and [to_timedelta], of the definitions that use
    them. *)

Module FloatHypnogram.


End FloatHypnogram.

(** [df.loc[label]] for one label: the row under this label.  [None] stands
    for the [KeyError] of a label that is not in the index. *)
Definition loc_label {A} (df : list (Z * A)) (label : Z) : option A :=
  snd <$> List.find (fun r => r.1 =? label) df.

(** A row of a Visbrain file as [read_csv] delivers it: [state] and
    [end_time]. *)
Definition _infer_bout_start (df : list (Z * (string * Z)))
    (bout : Z * (string * Z)) : option Z :=
  if bout.1 =? 0 then Some 0
  else row ← loc_label df (bout.1 - 1); Some row.2.

(** [load_visbrain_hypnogram], from the rows read on.  [None] stands for
    an exception: the [KeyError] of [_infer_bout_start], and the
    [ValueError] of a file without rows, where [df.apply] returns an empty
    frame that cannot be assigned to a column. *)
Definition load_visbrain_hypnogram (fsub : Z -> Z -> Z)
    (rows : list (string * Z)) : option frame :=
  match rows with
  | [] => None
  | _ =>
      let df := imap (fun p x => (Z.of_nat p, x)) rows in
      starts ← mapM (_infer_bout_start df) df;
      Some (zip_with
              (fun row s => (row.1, Bout row.2.1 s row.2.2 (fsub row.2.2 s)))
              df starts)
  end.

Definition get_empty_hypnogram (end_time : Z) : frame :=
  DataFrame [ Bout "None" 0 end_time end_time ].

(** [np.asarray(intervals)[:, c]]: a column of the array of the intervals.
    The array of an empty list has one dimension only, and indexing it with
    two fails. *)
Definition getitem_column (intervals : list (Z * Z)) (c : Z * Z -> Z)
    : result (list Z) :=
  match intervals with
  | [] => Raise IndexError
  | _ => Ok (c <$> intervals)
  end.

(** One of the two frames of [get_separated_wake_hypnogram]; [np.diff] of an
    interval is its end minus its start. *)
Definition wake_frame (fsub : Z -> Z -> Z) (state : string)
    (intervals : list (Z * Z)) : result frame :=
  starts ← getitem_column intervals fst;
  ends ← getitem_column intervals snd;
  let durations := (fun interval => fsub interval.2 interval.1) <$> intervals in
  Ok (DataFrame
        (zip_with (fun se d => Bout state se.1 se.2 d) (zip starts ends)
                  durations)).

(** [pd.concat([qwk, awk]).sort_values(by=["start_time"]).reset_index()]:
    the sort and the new labels are those of [fill_gaps]; the column that
    [reset_index] adds for the old labels is left out, no method reads
    it. *)
Definition get_separated_wake_hypnogram (fsub : Z -> Z -> Z)
    (qwk_intervals awk_intervals : list (Z * Z)) : result frame :=
  qwk ← wake_frame fsub "qWk" qwk_intervals;
  awk ← wake_frame fsub "aWk" awk_intervals;
  Ok (DatetimeHypnogram.sort_values_start_time (qwk ++ awk)).

(** The bouts of a Visbrain file: each starts where the one before ended,
    the first at [previous]. *)
Fixpoint visbrain_bouts (fsub : Z -> Z -> Z) (previous : Z)
    (rows : list (string * Z)) : list bout :=
  match rows with
  | [] => []
  | row :: rows' =>
      Bout row.1 previous row.2 (fsub row.2 previous)
      :: visbrain_bouts fsub row.2 rows'
  end.

(** Three Visbrain rows, with their end times in seconds. *)
Definition visbrain_rows : list (string * Z) :=
  [ ("Wake", 10); ("NREM", 25); ("REM", 30) ]%string.

(** * Proofs *)

(** ** Masks *)

Lemma getitem_mask_map {A} (p : A -> bool) (l : list A) :
  getitem_mask l (map p l) = List.filter p l.
Proof. induction l as [|a l IH]; simpl; [done|]. by rewrite IH. Qed.

Lemma getitem_mask_sublist {A} (l : list A) (mask : list bool) :
  getitem_mask l mask `sublist_of` l.
Proof.
  revert mask. induction l as [|a l IH]; intros [|[] mask]; simpl;
    try apply sublist_nil_l.
  - by apply sublist_skip.
  - by apply sublist_cons.
Qed.

Lemma is_monotonic_increasing_Sorted (l : list Z) :
  is_monotonic_increasing l = true <-> Sorted Z.le l.
Proof.
  induction l as [|a [|b l] IH].
  - simpl. split; [intros _; apply Sorted_nil | done].
  - simpl. split; [intros _; repeat constructor | done].
  - change (is_monotonic_increasing (a :: b :: l))
      with ((a <=? b) && is_monotonic_increasing (b :: l)).
    rewrite andb_true_iff, Z.leb_le, IH. split.
    + intros [? ?]. constructor; [done | by constructor].
    + intros H. inversion H as [|? ? ? Hd]; subst. inversion Hd; subst. done.
Qed.

Lemma existsb_eqb_elem_of (x : string) (l : list string) :
  existsb (String.eqb x) l = true <-> x ∈ l.
Proof.
  rewrite existsb_exists. split.
  - intros (y & Hy & ->%String.eqb_eq). by apply list_elem_of_In.
  - intros Hx. exists x. split; [by apply list_elem_of_In | apply String.eqb_refl].
Qed.

Lemma issubset_spec (a b : list string) :
  Hypnogram.issubset a b = true <-> forall x, x ∈ a -> x ∈ b.
Proof.
  unfold Hypnogram.issubset. rewrite forallb_forall. split.
  - intros H x Hx. apply existsb_eqb_elem_of, H. by apply list_elem_of_In.
  - intros H x Hx. apply existsb_eqb_elem_of, H. by apply list_elem_of_In.
Qed.

Lemma issubset_false (a b : list string) :
  Hypnogram.issubset a b = false <-> exists x, x ∈ a /\ x ∉ b.
Proof.
  split.
  - induction a as [|x a IH]; simpl; [done|].
    destruct (existsb (String.eqb x) b) eqn:E; simpl.
    + intros (y & Hy & Hn)%IH. exists y. split; [by right | done].
    + intros _. exists x. split; [by left|].
      intros Hx%existsb_eqb_elem_of. congruence.
  - intros (x & Hx & Hn). destruct (Hypnogram.issubset a b) eqn:E; [|done].
    destruct Hn. eapply issubset_spec; eauto.
Qed.

(** ** Validation *)

(** C4, as the code has it: [_validate] raises exactly when one of the four
    fields [state], [start_time], [end_time], [duration] is not a column
    (the [AttributeError] is the error that the specification calls
    [SchemaError]), and returns when all four are there.  The constructor
    itself checks nothing: it returns the frame it is given, whatever its
    columns. *)
Theorem validate_requires_fields (self : Hypnogram.table) :
  (Hypnogram._validate self = Raise AttributeError <->
     exists f, f ∈ Hypnogram.required /\ f ∉ Hypnogram.columns self) /\
  (Hypnogram._validate self = Ok tt <->
     forall f, f ∈ Hypnogram.required -> f ∈ Hypnogram.columns self) /\
  Hypnogram.__init__ self = Ok self.
Proof.
  unfold Hypnogram._validate.
  destruct (Hypnogram.issubset _ _) eqn:E; simpl.
  - pose proof (proj1 (issubset_spec _ _) E) as H.
    repeat split; try done.
    intros (f & Hf & Hn). destruct Hn. by apply H.
  - pose proof (proj1 (issubset_false _ _) E) as H.
    repeat split; try done.
    intros H'. apply issubset_spec in H'. congruence.
Qed.

Example validate_examples :
  Hypnogram._validate full_table = Ok tt /\
  Hypnogram._validate spike2_table = Raise AttributeError.
Proof. split; reflexivity. Qed.

(** C4, as the specification has it, fails: a frame without a [duration]
    column, the one [load_spike2_hypnogram] builds, is constructed without
    any error. *)
Lemma init_accepts_missing_field :
  (("duration" : string) ∈ Hypnogram.required) /\
  (("duration" : string) ∉ Hypnogram.columns spike2_table) /\
  Hypnogram.__init__ spike2_table = Ok spike2_table.
Proof.
  split; [|split]; [| |reflexivity].
  - unfold Hypnogram.required. rewrite !elem_of_cons. auto.
  - unfold spike2_table, Hypnogram.columns. simpl.
    rewrite !elem_of_cons, elem_of_nil. intros [?|[?|[?|[]]]]; discriminate.
Qed.

(** ** Labelling and coverage *)

Section scan.
Context {A : Type} (v : row -> A).

Lemma zip_with_setitem_mask {B} (g : Z -> A -> B) (q : Z -> bool) (x : A)
    (times : list Z) (arr : list A) :
  zip_with g times (setitem_mask arr (map q times) x)
  = zip_with (fun t a => g t (if q t then x else a)) times arr.
Proof.
  revert arr. induction times as [|t times IH]; intros [|a arr]; simpl; try done.
  by rewrite IH.
Qed.

Lemma fold_setitem_mask (self : frame) (times : list Z) (arr : list A) :
  length arr = length times ->
  fold_left (fun a r => setitem_mask a (Hypnogram.times_in_bout r.2 times) (v r))
    self arr
  = zip_with (fun t a => fold_left (visit v t) self a) times arr.
Proof.
  revert arr. induction self as [|r self IH]; intros arr Hlen; simpl.
  - clear -Hlen. revert arr Hlen.
    induction times as [|t times IH]; intros [|a arr] Hlen; simpl in *; try done.
    f_equal. apply IH. lia.
  - rewrite IH.
    + unfold Hypnogram.times_in_bout. by rewrite zip_with_setitem_mask.
    + rewrite <- Hlen. clear. unfold Hypnogram.times_in_bout.
      revert arr. induction times as [|t times IH]; intros [|a arr]; simpl; try done.
      by rewrite IH.
Qed.

Lemma fold_visit_last (self : frame) (t : Z) (a : A) :
  fold_left (visit v t) self a
  = match last (List.filter (containsb t) self) with
    | Some r => v r
    | None => a
    end.
Proof.
  revert a. induction self as [|r self IH]; intros a; simpl; [done|].
  rewrite IH. unfold visit. destruct (containsb t r); [|done].
  rewrite last_cons. by destruct (last _).
Qed.
End scan.

Lemma containsb_contains (t : Z) (r : row) :
  containsb t r = true <-> contains r.2 t.
Proof. unfold containsb, contains. rewrite andb_true_iff, !Z.leb_le. done. Qed.

Lemma elem_of_bool_filter {A} (p : A -> bool) (l : list A) (x : A) :
  x ∈ List.filter p l <-> x ∈ l /\ p x = true.
Proof. rewrite !list_elem_of_In. apply filter_In. Qed.

Lemma get_states_label (self : frame) (times : list Z) :
  Hypnogram.get_states self times = map (label self) times.
Proof.
  unfold Hypnogram.get_states.
  rewrite (fold_setitem_mask (fun r => state r.2)) by apply length_replicate.
  rewrite zip_with_replicate_r_eq by done.
  apply list_fmap_ext. intros _ t _. apply (fold_visit_last (fun r => state r.2)).
Qed.

Lemma covers_time_covers (self : frame) (times : list Z) :
  Hypnogram.covers_time self times = map (covers self) times.
Proof.
  unfold Hypnogram.covers_time.
  rewrite (fold_setitem_mask (fun _ => true)) by apply length_replicate.
  rewrite zip_with_replicate_r_eq by done.
  apply list_fmap_ext. intros _ t _. unfold flip.
  rewrite (fold_visit_last (fun _ => true)). unfold covers.
  destruct (last _) as [r|] eqn:E.
  - apply last_Some_elem_of, elem_of_bool_filter in E as [Hr Hc].
    symmetry. apply existsb_exists. exists r. by rewrite <- list_elem_of_In.
  - apply last_None in E. symmetry. apply not_true_is_false.
    intros (r & Hr & Hc)%existsb_exists.
    assert (r ∈ List.filter (containsb t) self) as Hin.
    { apply elem_of_bool_filter. by rewrite list_elem_of_In. }
    rewrite E in Hin. by apply elem_of_nil in Hin.
Qed.

(** C5: [get_states], on an array of at least one time, labels every time
    with the state of the last bout, in sequence order, whose closed
    interval [[start_time, end_time]] contains it, and with the empty label
    when no bout contains it.  In particular a time strictly inside a bout,
    and inside no other bout, gets the state of that bout. *)
Theorem get_states_last_bout (self : frame) (times : list Z) :
  times <> [] ->
  Hypnogram.get_states self times = map (label self) times /\
  (forall (p : nat) (t : Z),
     times !! p = Some t ->
     Hypnogram.get_states self times !! p =
       Some (match last (List.filter (fun r => containsb t r) self) with
             | Some r => state r.2
             | None => ""%string
             end)) /\
  (forall (p : nat) (t : Z) (r : row),
     times !! p = Some t ->
     r ∈ self ->
     start_time r.2 < t < end_time r.2 ->
     (forall r', r' ∈ self -> contains r'.2 t -> r' = r) ->
     Hypnogram.get_states self times !! p = Some (state r.2)).
Proof.
  intros _. rewrite get_states_label. split; [done|]. split.
  - intros p t Hp. by rewrite list_lookup_fmap, Hp.
  - intros p t r Hp Hr Ht Huniq.
    rewrite list_lookup_fmap, Hp. simpl. f_equal. unfold label.
    destruct (last _) as [r'|] eqn:E.
    + apply last_Some_elem_of, elem_of_bool_filter in E as [Hr' Hc].
      apply containsb_contains in Hc. by rewrite (Huniq r' Hr' Hc).
    + apply last_None in E.
      assert (r ∈ List.filter (containsb t) self) as Hin.
      { apply elem_of_bool_filter. split; [done|].
        apply containsb_contains. unfold contains. lia. }
      rewrite E in Hin. by apply elem_of_nil in Hin.
Qed.

Lemma get_states_last_bout_witness :
  [seconds 10] <> [] /\
  Hypnogram.get_states abA [seconds 10] = map (label abA) [seconds 10] /\
  Hypnogram.get_states abA [seconds 10] !! 0%nat = Some "B"%string.
Proof.
  assert ([seconds 10] <> []) as H by discriminate.
  destruct (get_states_last_bout abA [seconds 10] H) as (Hall & Hlast & _).
  split; [exact H|]. split; [exact Hall|]. exact (Hlast 0%nat _ eq_refl).
Defined.

(** C6: coverage is closed at both ends.  For a bout [[s, e]] of the
    timeline ([s <= e], the invariant of a bout), [covers_time([s])] and
    [covers_time([e])] are both true; in general a time is covered exactly
    when [start_time <= t <= end_time] for some bout. *)
Theorem covers_time_closed (self : frame) (r : row) :
  r ∈ self ->
  start_time r.2 <= end_time r.2 ->
  Hypnogram.covers_time self [start_time r.2] = [true] /\
  Hypnogram.covers_time self [end_time r.2] = [true] /\
  (forall t, Hypnogram.covers_time self [t] = [true] <->
             exists r', r' ∈ self /\ start_time r'.2 <= t <= end_time r'.2).
Proof.
  intros Hr Hle.
  assert (forall t, Hypnogram.covers_time self [t] = [true] <->
             exists r', r' ∈ self /\ start_time r'.2 <= t <= end_time r'.2) as H.
  { intros t. rewrite covers_time_covers. simpl. unfold covers. split.
    - intros [= (r' & Hr' & Hc)%existsb_exists]. exists r'.
      split; [by apply list_elem_of_In | by apply containsb_contains].
    - intros (r' & Hr' & Hc). f_equal. apply existsb_exists. exists r'.
      split; [by apply list_elem_of_In | by apply containsb_contains]. }
  split; [|split; [|done]]; apply H; exists r; (split; [done | lia]).
Qed.

Lemma covers_time_closed_witness :
  let r : row := (0, Bout "A" (seconds 0) (seconds 10) (seconds 10)) in
  r ∈ a_gap_b /\
  start_time r.2 <= end_time r.2 /\
  Hypnogram.covers_time a_gap_b [seconds 0] = [true] /\
  Hypnogram.covers_time a_gap_b [seconds 10] = [true].
Proof.
  intros r.
  assert (r ∈ a_gap_b) as Hr by left.
  assert (start_time r.2 <= end_time r.2) as Hle by (vm_compute; discriminate).
  destruct (covers_time_closed a_gap_b r Hr Hle) as (Hs & He & _).
  repeat split; assumption.
Defined.

(** ** [keep_first] *)

(** Within 64 bits nothing wraps, and a duration that is not negative is
    not [NaT]: while the sum of the durations fits, the mask of [keep_first]
    is the comparison of the running sums with the budget. *)
Lemma wrap_small (z : Z) : - 2 ^ 63 <= z < 2 ^ 63 -> wrap z = z.
Proof. intros H. unfold wrap. rewrite Z.mod_small; lia. Qed.

Lemma sum_cons (x : Z) (l : list Z) : sum (x :: l) = x + sum l.
Proof. reflexivity. Qed.

Lemma sum_nonneg (l : list Z) : Forall (fun d => 0 <= d) l -> 0 <= sum l.
Proof.
  induction 1 as [|d l Hd _ IH]; [done|]. rewrite sum_cons. lia.
Qed.

Lemma cumsum_from_running (acc : Z) (l : list Z) :
  Forall (fun d => 0 <= d) l -> 0 <= acc -> acc + sum l < 2 ^ 63 ->
  cumsum_from acc l = running_from acc l.
Proof.
  intros Hl. revert acc. induction Hl as [|d l Hd Hl IH]; intros acc Hacc Hfit;
    simpl; [done|].
  rewrite sum_cons in Hfit. pose proof (sum_nonneg l Hl).
  rewrite wrap_small by lia. f_equal. apply IH; lia.
Qed.

Lemma timedelta_le_nonneg (c b : Z) : 0 <= c -> timedelta_le c b = (c <=? b).
Proof.
  intros Hc. unfold timedelta_le, NaT.
  destruct (Z.eqb_spec c (- 2 ^ 63)); [lia|].
  destruct (Z.eqb_spec b (- 2 ^ 63)) as [->|]; [|done].
  simpl. symmetry. apply Z.leb_gt. lia.
Qed.

Lemma running_from_ge (acc : Z) (l : list Z) :
  Forall (fun d => 0 <= d) l -> Forall (fun c => acc <= c) (running_from acc l).
Proof.
  revert acc. induction l as [|d l IH]; intros acc Hl; simpl; [constructor|].
  inversion Hl as [|? ? Hd Hl']; subst. constructor; [lia|].
  eapply Forall_impl; [by apply IH|]. simpl. intros. lia.
Qed.

Lemma getitem_mask_none {A} (l : list A) (mask : list bool) :
  Forall (fun m => m = false) mask -> getitem_mask l mask = [].
Proof.
  revert l. induction mask as [|m mask IH]; intros [|a l] H; simpl; try done.
  inversion H; subst. by apply IH.
Qed.

Lemma keep_first_from (self : frame) (budget acc : Z) :
  Forall (fun r => 0 <= duration r.2) self ->
  exists n : nat,
    getitem_mask self
      (map (fun c => c <=? budget) (running_from acc (duration <$> self.*2)))
      = take n self /\
    (forall (p : nat) (c : Z),
       running_from acc (duration <$> self.*2) !! p = Some c ->
       (p < n)%nat <-> c <= budget) /\
    ((0 < n)%nat -> acc + sum (duration <$> (take n self).*2) <= budget) /\
    (forall r, self !! n = Some r ->
       budget < acc + sum (duration <$> (take n self).*2) + duration r.2).
Proof.
  revert acc. induction self as [|r self IH]; intros acc Hnn; csimpl.
  - exists 0%nat. repeat split; try done; lia.
  - inversion Hnn as [|? ? Hr Hnn']; subst.
    destruct (Z.leb_spec (acc + duration r.2) budget) as [Hle|Hgt].
    + destruct (IH (acc + duration r.2) Hnn') as (n & Hk & Hp & Hs & Hx).
      exists (S n). csimpl. rewrite Hk. split; [done|]. split; [|split].
      * intros [|p] c; csimpl.
        -- intros [= <-]. split; [done | lia].
        -- intros Hc. rewrite <- (Hp p c Hc). lia.
      * intros _. destruct n as [|n]; [csimpl; lia|].
        specialize (Hs ltac:(lia)). lia.
      * intros r' Hr'. specialize (Hx r' Hr'). lia.
    + exists 0%nat. csimpl. split; [|split; [|split]].
      * apply getitem_mask_none, Forall_fmap.
        eapply Forall_impl; [apply (running_from_ge (acc + duration r.2))|].
        -- apply Forall_fmap, Forall_fmap. by eapply Forall_impl; [exact Hnn'|].
        -- csimpl. intros c Hc. apply Z.leb_gt. lia.
      * intros [|p] c; csimpl.
        -- intros [= <-]. lia.
        -- intros Hc. split; [lia|]. intros Hle.
           assert (Forall (fun c => acc + duration r.2 <= c)
                     (running_from (acc + duration r.2) (duration <$> self.*2))) as Hge.
           { apply running_from_ge, Forall_fmap, Forall_fmap.
             by eapply Forall_impl; [exact Hnn'|]. }
           rewrite Forall_forall in Hge.
           specialize (Hge c ltac:(eapply list_elem_of_lookup_2; eauto)). lia.
      * lia.
      * intros r' [= <-]. lia.
Qed.

Lemma keep_first_running (self : frame) (budget : Z) :
  Forall (fun r => 0 <= duration r.2) self ->
  sum (duration <$> self.*2) < 2 ^ 63 ->
  cumsum (duration <$> self.*2) = running_from 0 (duration <$> self.*2) /\
  DatetimeHypnogram.keep_first self budget
  = getitem_mask self
      (map (fun c => c <=? budget) (running_from 0 (duration <$> self.*2))).
Proof.
  intros Hnn Hfit.
  assert (Forall (fun d => 0 <= d) (duration <$> self.*2)) as Hd.
  { apply Forall_fmap, Forall_fmap. by eapply Forall_impl; [exact Hnn|]. }
  assert (cumsum (duration <$> self.*2) = running_from 0 (duration <$> self.*2))
    as Hc by (apply cumsum_from_running; [done | lia | lia]).
  split; [done|]. unfold DatetimeHypnogram.keep_first. rewrite Hc. f_equal.
  apply map_ext_Forall. eapply Forall_impl; [by apply running_from_ge|].
  simpl. intros c Hge. by apply timedelta_le_nonneg.
Qed.

(** C7, as the code has it: on a timeline whose durations are all
    non-negative and sum to less than 2^63 ns, what a 64-bit count holds,
    [keep_first(budget)] returns a prefix, the first [n] bouts, where the
    running sum of durations is within the budget exactly at the positions
    before [n].  The durations kept sum to at most the budget provided the
    budget is not negative or something is kept; and when a bout is left
    out, the kept durations together with the duration of the first bout
    left out exceed the budget. *)
Theorem keep_first_prefix (self : frame) (budget : Z) :
  Forall (fun r => 0 <= duration r.2) self ->
  sum (duration <$> self.*2) < 2 ^ 63 ->
  exists n : nat,
    DatetimeHypnogram.keep_first self budget = take n self /\
    (forall (p : nat) (c : Z),
       cumsum (duration <$> self.*2) !! p = Some c -> (p < n)%nat <-> c <= budget) /\
    (0 <= budget \/ DatetimeHypnogram.keep_first self budget <> [] ->
       sum (duration <$> (DatetimeHypnogram.keep_first self budget).*2) <= budget) /\
    (forall r, self !! n = Some r ->
       budget <
         sum (duration <$> (DatetimeHypnogram.keep_first self budget).*2)
         + duration r.2).
Proof.
  intros Hnn Hfit.
  destruct (keep_first_from self budget 0 Hnn) as (n & Hk & Hp & Hs & Hx).
  destruct (keep_first_running self budget Hnn Hfit) as [-> ->].
  exists n. rewrite Hk.
  split; [done|]. split; [done|]. split.
  - intros H. destruct n as [|n].
    + destruct H as [H|H]; [by rewrite take_0 | by rewrite take_0 in H].
    + specialize (Hs ltac:(lia)). lia.
  - intros r Hr. specialize (Hx r Hr). lia.
Qed.

Lemma keep_first_prefix_witness :
  Forall (fun r : row => 0 <= duration r.2) abA /\
  sum (duration <$> abA.*2) < 2 ^ 63 /\
  exists n : nat,
    DatetimeHypnogram.keep_first abA (seconds 10) = take n abA /\
    sum (duration <$> (DatetimeHypnogram.keep_first abA (seconds 10)).*2)
      <= seconds 10.
Proof.
  assert (Forall (fun r : row => 0 <= duration r.2) abA) as H.
  { repeat constructor; vm_compute; discriminate. }
  assert (sum (duration <$> abA.*2) < 2 ^ 63) as Hfit by reflexivity.
  split; [exact H|]. split; [exact Hfit|].
  destruct (keep_first_prefix abA (seconds 10) H Hfit) as (n & Hk & _ & Hs & _).
  exists n. split; [exact Hk|]. apply Hs. left. vm_compute. discriminate.
Defined.

(** C7, as the specification has it, fails for a negative budget: nothing
    is kept, and the empty sum, zero, is above the budget. *)
Lemma keep_first_negative_budget :
  Forall (fun r : row => 0 <= duration r.2) one_bout /\
  DatetimeHypnogram.keep_first one_bout (seconds (-1)) = [] /\
  ~ sum (duration <$> (DatetimeHypnogram.keep_first one_bout (seconds (-1))).*2)
      <= seconds (-1).
Proof.
  split; [|split].
  - repeat constructor. vm_compute. discriminate.
  - reflexivity.
  - vm_compute. intros H. by apply H.
Qed.

(** The durations must fit together in 64 bits: of two bouts of 200 years
    each the running sum wraps around to a negative count at the second,
    and [keep_first] with a budget of one second keeps the second bout
    alone, which is no prefix and lasts longer than the budget. *)
Remark keep_first_wraps :
  Forall (fun r : row => 0 <= duration r.2) centuries /\
  cumsum (duration <$> centuries.*2)
    = [6311433600000000000; -5823876873709551616] /\
  DatetimeHypnogram.keep_first centuries (seconds 1) = drop 1 centuries /\
  DatetimeHypnogram.keep_last centuries (seconds 1) = take 1 centuries.
Proof.
  split; [|split; [|split]]; [|reflexivity..].
  repeat constructor; vm_compute; discriminate.
Qed.

(** ** The filters *)

Lemma StronglySorted_lt_seq (j n : nat) : StronglySorted lt (seq j n).
Proof.
  revert j. induction n as [|n IH]; intros j; simpl; constructor; [apply IH|].
  apply Forall_forall. intros p Hp%elem_of_seq. lia.
Qed.

Lemma StronglySorted_bool_filter {A} (R : relation A) (p : A -> bool) (l : list A) :
  StronglySorted R l -> StronglySorted R (List.filter p l).
Proof.
  induction 1 as [|a l Hl IH Ha]; simpl; [constructor|].
  destruct (p a); [|done]. constructor; [done|].
  apply Forall_forall. intros x [Hx _]%elem_of_bool_filter.
  rewrite Forall_forall in Ha. by apply Ha.
Qed.

Lemma iloc_array_sublist (pos : list nat) (pre self : frame) :
  StronglySorted lt pos ->
  Forall (fun p => (length pre <= p < length (pre ++ self))%nat) pos ->
  exists out, iloc_array (pre ++ self) pos = Ok out /\ out `sublist_of` self.
Proof.
  revert pre self. induction pos as [|p pos IH]; intros pre self Hs Hr.
  - exists []. split; [done | apply sublist_nil_l].
  - apply StronglySorted_inv in Hs as [Hs Hlt].
    inversion Hr as [|? ? Hp Hr']; subst. rewrite length_app in Hp.
    destruct (lookup_lt_is_Some_2 self (p - length pre)) as [x Hx]; [lia|].
    pose proof (take_drop_middle self _ x Hx) as Hsplit.
    destruct (IH (pre ++ take (p - length pre) self ++ [x])
                 (drop (S (p - length pre)) self)) as (out & Ho & Hsub).
    + done.
    + rewrite <- !app_assoc. simpl. rewrite Hsplit.
      rewrite Forall_forall in Hlt, Hr'. apply Forall_forall. intros q Hq.
      specialize (Hlt q Hq). specialize (Hr' q Hq).
      rewrite length_app in Hr'. rewrite !length_app, length_take. simpl. lia.
    + rewrite <- !app_assoc in Ho. simpl in Ho. rewrite Hsplit in Ho.
      exists (x :: out). split.
      * cbn [iloc_array]. rewrite Ho.
        replace ((pre ++ self) !! p) with (Some x); [done|].
        by rewrite lookup_app_r by lia.
      * rewrite <- Hsplit. by apply sublist_inserts_l, sublist_skip.
Qed.

Lemma nonzero_lt (mask : list bool) (p : nat) :
  p ∈ DatetimeHypnogram.nonzero mask -> (p < length mask)%nat.
Proof.
  intros Hp. unfold DatetimeHypnogram.nonzero in Hp.
  eapply elem_of_sublist in Hp; [|apply getitem_mask_sublist].
  apply elem_of_seq in Hp. lia.
Qed.

Lemma existsb_eqb_nat (p : nat) (l : list nat) :
  existsb (Nat.eqb p) l = true <-> p ∈ l.
Proof.
  rewrite existsb_exists. split.
  - intros (y & Hy & ->%Nat.eqb_eq). by apply list_elem_of_In.
  - intros Hx. exists p. split; [by apply list_elem_of_In | apply Nat.eqb_refl].
Qed.

Lemma keep_between_sublist (self : frame) (s e : Z) :
  exists out, DatetimeHypnogram.keep_between self s e = Ok out /\
              out `sublist_of` self.
Proof.
  unfold DatetimeHypnogram.keep_between.
  apply (iloc_array_sublist _ [] self).
  - apply StronglySorted_bool_filter, StronglySorted_lt_seq.
  - apply Forall_forall. intros p [_ Hp]%elem_of_bool_filter.
    apply andb_true_iff in Hp as [Hp%existsb_eqb_nat _].
    apply nonzero_lt in Hp. rewrite length_map, !length_fmap in Hp.
    simpl. split; [lia | done].
Qed.

Lemma filters_intro (m : frame -> result frame) :
  (forall f, exists out, m f = Ok out /\ out `sublist_of` f) -> filters m.
Proof.
  intros Hm h self f Hf. destruct (Hm f) as (out & Ho & Hsub).
  exists out, (h ++ [out]). unfold call.
  rewrite (list_lookup_total_correct _ _ _ Hf), Ho. simpl.
  split; [done|]. split; [by apply lookup_app_l_Some|].
  split; [apply list_lookup_middle; done|]. split; [done|].
  intros r Hr. by eapply elem_of_sublist.
Qed.

(** C10: each of the five filters returns a sub-sequence of the rows of
    its input: rows of the input, labels and fields as they were, in their
    original order.  The result is a new frame and the input is left as it
    was. *)
Theorem filters_return_subsequences (states : list string)
    (duration' budget start_time' end_time' : Z) :
  filters (fun self => Ok (Hypnogram.keep_states self states)) /\
  filters (fun self => Ok (DatetimeHypnogram.keep_longer self duration')) /\
  filters (fun self => Ok (DatetimeHypnogram.keep_first self budget)) /\
  filters (fun self => Ok (DatetimeHypnogram.keep_last self budget)) /\
  filters (fun self => DatetimeHypnogram.keep_between self start_time' end_time').
Proof.
  repeat split; apply filters_intro; intros f;
    try (eexists; split; [reflexivity | apply getitem_mask_sublist]).
  apply keep_between_sublist.
Qed.

(** ** Gaps *)

Lemma findGaps_cons (a b : row) (self : frame) (tolerance : Z) :
  findGaps (a :: b :: self) tolerance
  = (if tolerance <? start_time b.2 - end_time a.2
     then [gap_of a.2 b.2] else [])
    ++ findGaps (b :: self) tolerance.
Proof.
  unfold findGaps, consecutive. cbn. unfold gap_between at 1. cbn.
  by destruct (tolerance <? _).
Qed.

Lemma findGaps_short (self : frame) (tolerance : Z) :
  (length self <= 1)%nat -> findGaps self tolerance = [].
Proof. destruct self as [|a [|b self]]; simpl; [done|done|lia]. Qed.

Lemma for_gaps_findGaps (self : frame) (tolerance : Z) (n i : nat)
    (gaps : list Gap.dict) :
  (i + n = length self - 1)%nat ->
  DatetimeHypnogram.for_gaps self tolerance (seq i n) gaps
  = Ok (gaps ++ findGaps (drop i self) tolerance).
Proof.
  revert i gaps. induction n as [|n IH]; intros i gaps Hlen; simpl.
  - rewrite findGaps_short, app_nil_r; [done|]. rewrite length_drop. lia.
  - destruct (lookup_lt_is_Some_2 self i) as [a Ha]; [lia|].
    destruct (lookup_lt_is_Some_2 self (S i)) as [b Hb]; [lia|].
    unfold iloc. rewrite Ha. replace (i + 1)%nat with (S i) by lia. rewrite Hb.
    simpl.
    rewrite (drop_S _ _ _ Ha), (drop_S _ _ _ Hb), findGaps_cons.
    rewrite <- (drop_S _ _ _ Hb).
    destruct (tolerance <? _); rewrite IH by lia; [|done].
    by rewrite <- app_assoc.
Qed.

Lemma get_gaps_findGaps (self : frame) (tolerance : Z) :
  DatetimeHypnogram.get_gaps self tolerance = Ok (findGaps self tolerance).
Proof.
  unfold DatetimeHypnogram.get_gaps.
  by rewrite (for_gaps_findGaps self tolerance _ 0) by lia.
Qed.

Lemma elem_of_findGaps (self : frame) (tolerance : Z) (g : Gap.dict) :
  g ∈ findGaps self tolerance <->
  exists (i : nat) (current next : row),
    self !! i = Some current /\ self !! S i = Some next /\
    g = gap_of current.2 next.2 /\
    tolerance < start_time next.2 - end_time current.2.
Proof.
  induction self as [|a [|b self] IH].
  - simpl. rewrite elem_of_nil. split; [done|]. by intros (i & ? & ? & ? & _).
  - simpl. rewrite elem_of_nil. split; [done|].
    intros ([|i] & ? & ? & _ & ? & _); done.
  - rewrite findGaps_cons, elem_of_app, IH. split.
    + intros [Hg|(i & c & n & Hc & Hn & Hg)].
      * destruct (Z.ltb_spec tolerance (start_time b.2 - end_time a.2));
          [|by apply elem_of_nil in Hg].
        apply list_elem_of_singleton in Hg. by exists 0%nat, a, b.
      * by exists (S i), c, n.
    + intros ([|i] & c & n & Hc & Hn & Hg & Hlt).
      * left. simpl in Hc, Hn. injection Hc as <-. injection Hn as <-.
        rewrite (proj2 (Z.ltb_lt _ _) Hlt). by apply list_elem_of_singleton.
      * right. by exists i, c, n.
Qed.



(** ** Filling the gaps *)

Lemma snd_imap_pair (g : nat -> Z) (bs : list bout) :
  (imap (fun p b => (g p, b)) bs).*2 = bs.
Proof.
  revert g. induction bs as [|b bs IH]; intros g; [done|].
  rewrite imap_cons. csimpl. f_equal. apply (IH (g ∘ S)).
Qed.

Lemma snd_reindex (bs : list bout) : (reindex bs).*2 = bs.
Proof. apply snd_imap_pair. Qed.

Lemma snd_insert_row (r : row) (f : frame) :
  (DatetimeHypnogram.insert_row r f).*2 = insert_bout r.2 f.*2.
Proof.
  induction f as [|r' f IH]; csimpl; [done|].
  destruct (start_time r.2 <=? start_time r'.2); csimpl; [done|]. by rewrite IH.
Qed.

Lemma snd_sort (f : frame) :
  (foldr DatetimeHypnogram.insert_row [] f).*2 = foldr insert_bout [] f.*2.
Proof.
  induction f as [|r f IH]; csimpl; [done|]. by rewrite snd_insert_row, IH.
Qed.

Lemma findGaps_ext (f f' : frame) (tolerance : Z) :
  f.*2 = f'.*2 -> findGaps f tolerance = findGaps f' tolerance.
Proof. unfold findGaps, consecutive. by intros ->. Qed.

(** The sort returns a sorted frame. *)
Lemma Sorted_insert_bout (b : bout) (l : list bout) :
  Sorted (fun x y => start_time x <= start_time y) l ->
  Sorted (fun x y => start_time x <= start_time y) (insert_bout b l).
Proof.
  induction 1 as [|x l Hl IH Hx]; simpl; [by repeat constructor|].
  destruct (Z.leb_spec (start_time b) (start_time x)).
  - constructor; [by constructor | by constructor].
  - constructor; [done|].
    destruct l as [|y l]; simpl in *; [constructor; lia|].
    destruct (Z.leb_spec (start_time b) (start_time y)); constructor; try lia.
    by inversion Hx.
Qed.

Lemma Sorted_sort_values (f : frame) :
  Sorted Z.le (start_time <$> (DatetimeHypnogram.sort_values_start_time f).*2).
Proof.
  unfold DatetimeHypnogram.sort_values_start_time. rewrite snd_reindex, snd_sort.
  apply (Sorted_fmap _ (fun x y => start_time x <= start_time y)); [done|].
  induction (f.*2) as [|b l IH]; simpl; [constructor|].
  by apply Sorted_insert_bout.
Qed.

(** An inserted bout passes the bouts that start before it. *)
Lemma insert_bout_skip (x : bout) (pre l : list bout) :
  Forall (fun p => start_time p < start_time x) pre ->
  insert_bout x (pre ++ l) = pre ++ insert_bout x l.
Proof.
  induction 1 as [|p pre Hp _ IH]; simpl; [done|].
  destruct (Z.leb_spec (start_time x) (start_time p)); [lia|]. by rewrite IH.
Qed.

Lemma sort_skip (pre gaps l : list bout) :
  Forall (fun p => Forall (fun x => start_time p < start_time x) l) pre ->
  foldr insert_bout (pre ++ gaps) l = pre ++ foldr insert_bout gaps l.
Proof.
  induction l as [|x l IH]; intros Hpre; simpl; [done|].
  rewrite IH.
  - apply insert_bout_skip. eapply Forall_impl; [exact Hpre|].
    simpl. intros p Hp. by inversion Hp.
  - eapply Forall_impl; [exact Hpre|]. simpl. intros p Hp. by inversion Hp.
Qed.

Lemma interleave_cons (a b : bout) (rest : list bout) (tolerance : Z)
    (fill_state : string) :
  interleave (a :: b :: rest) tolerance fill_state
  = a :: (if tolerance <? start_time b - end_time a
          then [Gap.update_state (gap_of a b) fill_state] else [])
      ++ interleave (b :: rest) tolerance fill_state.
Proof. reflexivity. Qed.

Lemma head_interleave (bs : list bout) (tolerance : Z) (fill_state : string) :
  head (interleave bs tolerance fill_state) = head bs.
Proof. by destruct bs. Qed.

Lemma sort_interleave (self : frame) (tolerance : Z) (fill_state : string) :
  Sorted Z.le (start_time <$> self.*2) ->
  Forall (fun r => start_time r.2 <= end_time r.2) self ->
  0 <= tolerance ->
  foldr insert_bout
    ((fun gap => Gap.update_state gap fill_state) <$> findGaps self tolerance)
    self.*2
  = interleave self.*2 tolerance fill_state.
Proof.
  intros Hs Hwf Htol.
  induction self as [|a [|b self] IH]; [done|done|].
  assert (StronglySorted Z.le (start_time <$> (a :: b :: self).*2)) as Hss.
  { apply Sorted_StronglySorted; [|done]. intros ???; lia. }
  csimpl in Hss. apply StronglySorted_inv in Hss as [Hss Ha].
  apply StronglySorted_inv in Hss as [_ Hb].
  inversion Hs as [|? ? Hs' _]; subst.
  inversion Hwf as [|? ? Hwa Hwf']; subst.
  specialize (IH Hs' Hwf').
  rewrite findGaps_cons, fmap_app.
  change ((a :: b :: self).*2) with (a.2 :: b.2 :: self.*2).
  change ((b :: self).*2) with (b.2 :: self.*2) in IH.
  rewrite interleave_cons.
  change (foldr insert_bout ?x (a.2 :: ?l))
    with (insert_bout a.2 (foldr insert_bout x l)).
  destruct (Z.ltb_spec tolerance (start_time b.2 - end_time a.2)) as [Hgap|Hgap].
  - rewrite (sort_skip [Gap.update_state (gap_of a.2 b.2) fill_state]).
    + rewrite IH. simpl.
      destruct (Z.leb_spec (start_time a.2) (end_time a.2)); [done | lia].
    + constructor; [|constructor]. constructor; [simpl; lia|].
      rewrite Forall_fmap in Hb. eapply Forall_impl; [exact Hb|].
      simpl. intros. lia.
  - rewrite fmap_nil, !app_nil_l, IH.
    pose proof (head_interleave (b.2 :: self.*2) tolerance fill_state) as Hhd.
    destruct (interleave (b.2 :: self.*2) tolerance fill_state) as [|c l];
      [done|]. injection Hhd as ->. inversion Ha; subst. simpl.
    destruct (Z.leb_spec (start_time a.2) (start_time b.2)); [done | lia].
Qed.

Lemma findGaps_interleave (bs : list bout) (tolerance : Z) (fill_state : string) :
  0 <= tolerance ->
  findGaps (pair 0 <$> interleave bs tolerance fill_state) tolerance = [].
Proof.
  intros Htol. induction bs as [|a [|b bs] IH]; [done|done|].
  rewrite interleave_cons.
  pose proof (head_interleave (b :: bs) tolerance fill_state) as Hhd.
  destruct (interleave (b :: bs) tolerance fill_state) as [|c l]; [done|].
  injection Hhd as ->.
  destruct (Z.ltb_spec tolerance (start_time b - end_time a)) as [Hgap|Hgap];
    csimpl in *; rewrite !findGaps_cons, IH; csimpl;
    rewrite !(proj2 (Z.ltb_ge _ _)) by lia; done.
Qed.

(** The gaps of a sorted timeline start at or after its first bout. *)
Lemma findGaps_lower (b : row) (self : frame) (tolerance : Z) (g : Gap.dict) :
  Sorted Z.le (start_time <$> (b :: self).*2) ->
  Forall (fun r => start_time r.2 <= end_time r.2) (b :: self) ->
  g ∈ findGaps (b :: self) tolerance ->
  start_time b.2 <= Gap.start_time g.
Proof.
  intros Hs Hwf (i & c & n & Hc & _ & -> & _)%elem_of_findGaps. simpl.
  apply Sorted_StronglySorted in Hs; [|intros ???; lia].
  csimpl in Hs. apply StronglySorted_inv in Hs as [_ Hb].
  rewrite !Forall_fmap in Hb. rewrite Forall_forall in Hb, Hwf.
  apply list_elem_of_lookup_2 in Hc. specialize (Hwf c Hc).
  apply elem_of_cons in Hc as [->|Hc]; [done|].
  specialize (Hb c Hc). simpl in Hb. lia.
Qed.

(** The filling bouts come out of [get_gaps] already in order. *)
Lemma sort_gaps_id (self : frame) (tolerance : Z) (fill_state : string) :
  Sorted Z.le (start_time <$> self.*2) ->
  Forall (fun r => start_time r.2 <= end_time r.2) self ->
  0 <= tolerance ->
  foldr insert_bout []
    ((fun gap => Gap.update_state gap fill_state) <$> findGaps self tolerance)
  = (fun gap => Gap.update_state gap fill_state) <$> findGaps self tolerance.
Proof.
  intros Hs Hwf Htol.
  induction self as [|a [|b self] IH]; [done|done|].
  inversion Hs as [|? ? Hs' _]; subst.
  inversion Hwf as [|? ? Hwa Hwf']; subst.
  specialize (IH Hs' Hwf').
  pose proof (findGaps_lower b self tolerance) as Hlow.
  rewrite findGaps_cons.
  destruct (Z.ltb_spec tolerance (start_time b.2 - end_time a.2)) as [Hgap|Hgap];
    [|by rewrite app_nil_l].
  csimpl. rewrite IH.
  destruct (findGaps (b :: self) tolerance) as [|g gs]; [done|].
  specialize (Hlow g Hs' Hwf' ltac:(left)). csimpl.
  destruct (Z.leb_spec (end_time a.2) (Gap.start_time g)); [done | lia].
Qed.

Lemma fill_gaps_interleave (self : frame) (tolerance : Z) (fill_state : string) :
  Sorted Z.le (start_time <$> self.*2) ->
  Forall (fun r => start_time r.2 <= end_time r.2) self ->
  0 <= tolerance ->
  DatetimeHypnogram.fill_gaps self tolerance fill_state
  = Ok (reindex (interleave self.*2 tolerance fill_state)).
Proof.
  intros Hs Hwf Htol. unfold DatetimeHypnogram.fill_gaps.
  rewrite get_gaps_findGaps. simpl.
  unfold DatetimeHypnogram.sort_values_start_time, DatetimeHypnogram.append.
  rewrite snd_sort, fmap_app. unfold DataFrame. rewrite snd_reindex.
  rewrite foldr_app, sort_gaps_id, sort_interleave by done. done.
Qed.

Lemma insert_bout_Permutation (b : bout) (l : list bout) :
  insert_bout b l ≡ₚ b :: l.
Proof.
  induction l as [|x l IH]; simpl; [done|].
  destruct (start_time b <=? start_time x); [done|].
  by rewrite IH, Permutation_swap.
Qed.

Lemma sort_Permutation (l : list bout) : foldr insert_bout [] l ≡ₚ l.
Proof.
  induction l as [|x l IH]; simpl; [done|].
  by rewrite insert_bout_Permutation, IH.
Qed.


(** *** Any sort returns the same frame when no two rows start together *)

Lemma Sorted_lt_le (l : list Z) : Sorted Z.lt l -> Sorted Z.le l.
Proof.
  induction 1 as [|x l _ IH Hhd]; constructor; [done|].
  destruct Hhd; constructor. lia.
Qed.

Lemma StronglySorted_fmap_inv {A} (f : A -> Z) (l : list A) :
  StronglySorted Z.lt (f <$> l) -> StronglySorted (fun x y => f x < f y) l.
Proof.
  induction l as [|x l IH]; csimpl; [constructor|].
  intros [Hs Hx]%StronglySorted_inv. constructor; [by apply IH|].
  by rewrite Forall_fmap in Hx.
Qed.

Lemma StronglySorted_lt_NoDup (l : list Z) : StronglySorted Z.lt l -> NoDup l.
Proof.
  induction 1 as [|x l _ IH Hx]; constructor; [|done].
  intros Hin. rewrite Forall_forall in Hx. specialize (Hx x Hin). lia.
Qed.

Lemma Sorted_le_NoDup (l : list Z) :
  Sorted Z.le l -> NoDup l -> StronglySorted Z.lt l.
Proof.
  intros Hs%Sorted_StronglySorted Hnd; [|intros ???; lia].
  induction Hs as [|x l _ IH Hx]; [constructor|].
  apply NoDup_cons in Hnd as [Hx' Hnd]. constructor; [by apply IH|].
  rewrite Forall_forall in Hx |- *. intros y Hy. specialize (Hx y Hy).
  assert (x <> y) by (by intros ->). lia.
Qed.

Lemma index_reindex (bs : list bout) :
  index (reindex bs) = Z.of_nat <$> seq 0 (length bs).
Proof.
  unfold index, reindex.
  assert (forall n, (imap (fun p b => (Z.of_nat (n + p), b)) bs).*1
                    = Z.of_nat <$> seq n (length bs)) as H.
  { induction bs as [|b bs IH]; intros n; [done|].
    rewrite imap_cons. csimpl. rewrite Nat.add_0_r. f_equal.
    rewrite <- (IH (S n)). f_equal. apply imap_ext. intros p x _. simpl.
    f_equal. f_equal. lia. }
  apply (H 0%nat).
Qed.

(** The sort of the embedding is one of the sorts. *)
Lemma sort_values_sorted_by_start_time (f : frame) :
  sorted_by_start_time f (DatetimeHypnogram.sort_values_start_time f).
Proof.
  split; [|split].
  - unfold DatetimeHypnogram.sort_values_start_time.
    by rewrite snd_reindex, snd_sort, sort_Permutation.
  - apply Sorted_sort_values.
  - unfold DatetimeHypnogram.sort_values_start_time.
    rewrite index_reindex. unfold reindex. by rewrite length_imap.
Qed.

(** Two sorts of a frame in which no two rows have the same [start_time]
    return the same frame. *)
Lemma sorted_by_start_time_unique (f g g' : frame) :
  NoDup (start_time <$> f.*2) ->
  sorted_by_start_time f g -> sorted_by_start_time f g' -> g = g'.
Proof.
  intros Hnd (Hp & Hs & Hi) (Hp' & Hs' & Hi').
  assert (g.*2 = g'.*2) as Hcols.
  { apply (StronglySorted_unique_strong
             (fun x y : bout => start_time x < start_time y)).
    - intros ? ? _ _ ? ?. lia.
    - apply StronglySorted_fmap_inv, Sorted_le_NoDup; [done|]. by rewrite Hp.
    - apply StronglySorted_fmap_inv, Sorted_le_NoDup; [done|]. by rewrite Hp'.
    - by rewrite Hp, Hp'. }
  assert (length g = length g') as Hlen.
  { by rewrite <- (length_fmap snd g), Hcols, length_fmap. }
  rewrite <- (zip_fst_snd g), <- (zip_fst_snd g').
  unfold index in Hi, Hi'. by rewrite Hi, Hi', Hcols, Hlen.
Qed.

(** With bouts that end after they start, at start times that increase,
    the filling bouts fall strictly between the bouts. *)
Lemma interleave_strict (bs : list bout) (tolerance : Z) (fill_state : string) :
  Sorted Z.lt (start_time <$> bs) ->
  Forall (fun b => start_time b < end_time b) bs ->
  0 <= tolerance ->
  Sorted Z.lt (start_time <$> interleave bs tolerance fill_state).
Proof.
  intros Hs Hwf Htol. induction bs as [|a [|b bs] IH]; [done|done|].
  inversion Hs as [|? ? Hs' Hhd]; subst. inversion Hhd; subst.
  inversion Hwf as [|? ? Hwa Hwf']; subst.
  specialize (IH Hs' Hwf'). rewrite interleave_cons.
  pose proof (head_interleave (b :: bs) tolerance fill_state) as Hh.
  destruct (interleave (b :: bs) tolerance fill_state) as [|c l]; [done|].
  injection Hh as ->.
  destruct (Z.ltb_spec tolerance (start_time b - end_time a)); csimpl in *.
  - constructor; [constructor; [done|]|]; constructor; simpl; lia.
  - constructor; [done|]. by constructor.
Qed.

Lemma fill_gaps_unique (self filled : frame) (tolerance : Z)
    (fill_state : string) :
  Sorted Z.lt (start_time <$> self.*2) ->
  Forall (fun r => start_time r.2 < end_time r.2) self ->
  0 <= tolerance ->
  DatetimeHypnogram.fill_gaps self tolerance fill_state = Ok filled ->
  Sorted Z.lt (start_time <$> filled.*2) /\
  forall filled',
    sorted_by_start_time
      (DatetimeHypnogram.append self
         (map (fun gap => Gap.update_state gap fill_state)
              (findGaps self tolerance)))
      filled' ->
    filled' = filled.
Proof.
  intros Hs Hwf Htol Hfill.
  assert (Forall (fun r : row => start_time r.2 <= end_time r.2) self) as Hwf'.
  { eapply Forall_impl; [exact Hwf|]. simpl. intros. lia. }
  pose proof Hfill as Hfill'. unfold DatetimeHypnogram.fill_gaps in Hfill'.
  rewrite get_gaps_findGaps in Hfill'. simpl in Hfill'. injection Hfill' as Hsort.
  rewrite fill_gaps_interleave in Hfill by (done || by apply Sorted_lt_le).
  injection Hfill as Hfilled.
  assert (Sorted Z.lt (start_time <$> filled.*2)) as Hstrict.
  { rewrite <- Hfilled, snd_reindex. apply interleave_strict; [done| |done].
    by apply Forall_fmap. }
  split; [done|]. intros filled' Hspec.
  eapply sorted_by_start_time_unique; [|exact Hspec|].
  - destruct (sort_values_sorted_by_start_time
                (DatetimeHypnogram.append self
                   (map (fun gap => Gap.update_state gap fill_state)
                        (findGaps self tolerance)))) as (Hp & _).
    rewrite <- Hp, Hsort. apply StronglySorted_lt_NoDup.
    apply Sorted_StronglySorted; [intros ???; lia | done].
  - rewrite <- Hsort. apply sort_values_sorted_by_start_time.
Qed.




(** The bouts must end no earlier than they start: behind a bout that ends
    before its start the filling bout is sorted in front of it, and the gap
    is found again. *)
Remark fill_gaps_inverted_bout :
  Sorted Z.le (start_time <$> inverted.*2) /\
  (filled ← DatetimeHypnogram.fill_gaps inverted (seconds 0) "None";
   DatetimeHypnogram.get_gaps filled (seconds 0))
    = Ok [ Gap.Dict (seconds 0) (seconds 20) (seconds 20) ].
Proof.
  split; [apply is_monotonic_increasing_Sorted; reflexivity | reflexivity].
Qed.

(** The order of rows with equal [start_time] matters, and the sort of the
    code does not fix it: behind a bout of no length the filling bout has
    the same [start_time] as this bout.  Kept after it, it leaves no gap;
    placed in front of it, in a frame that is sorted by [start_time] all the
    same, it leaves the gap to be found again. *)
Remark fill_gaps_tie_order :
  let filling := Bout "None" (seconds 0) (seconds 5) (seconds 5) in
  let a := Bout "A" (seconds 0) (seconds 0) (seconds 0) in
  let b := Bout "B" (seconds 5) (seconds 10) (seconds 5) in
  DatetimeHypnogram.fill_gaps instant (seconds 0) "None"
    = Ok (DataFrame [a; filling; b]) /\
  DatetimeHypnogram.get_gaps (DataFrame [a; filling; b]) (seconds 0) = Ok [] /\
  [filling; a; b] ≡ₚ (DatetimeHypnogram.append instant [filling]).*2 /\
  Sorted Z.le (start_time <$> [filling; a; b]) /\
  DatetimeHypnogram.get_gaps (DataFrame [filling; a; b]) (seconds 0)
    = Ok [ Gap.Dict (seconds 0) (seconds 5) (seconds 5) ].
Proof.
  intros filling a b. split; [reflexivity|]. split; [reflexivity|].
  split; [|split; [|reflexivity]].
  - change ((DatetimeHypnogram.append instant [filling]).*2)
      with [a; b; filling].
    by rewrite (Permutation_swap a filling [b]), (Permutation_swap b filling []).
  - apply is_monotonic_increasing_Sorted. reflexivity.
Qed.

(** ** The precondition of [get_consolidated] *)

(** C3: on a timeline whose [start_time] column is not non-decreasing,
    [get_consolidated] returns nothing: the assertion on
    [is_monotonic_increasing] fails.  (The [AssertionError] is the error
    that the specification calls [OrderingError].) *)
Theorem get_consolidated_unsorted (self : frame) (states : list string)
    (frac : Q) (minimum_time : Z) :
  ~ Sorted Z.le (start_time <$> self.*2) ->
  DatetimeHypnogram.get_consolidated self states frac minimum_time
    = Raise AssertionError.
Proof.
  intros H. unfold DatetimeHypnogram.get_consolidated.
  destruct (is_monotonic_increasing _) eqn:E; [|done].
  by apply is_monotonic_increasing_Sorted in E.
Qed.

Lemma get_consolidated_unsorted_witness :
  ~ Sorted Z.le (start_time <$> unsorted.*2) /\
  DatetimeHypnogram.get_consolidated unsorted ["A"%string] (4 # 5)%Q (seconds 5)
    = Raise AssertionError.
Proof.
  assert (~ Sorted Z.le (start_time <$> unsorted.*2)) as H.
  { intros H%is_monotonic_increasing_Sorted. vm_compute in H. discriminate. }
  split; [exact H | exact (get_consolidated_unsorted _ _ _ _ H)].
Defined.

(** ** The example of a consolidated period *)

(** C1: on [(A,0,10), (B,10,10.5), (A,10.5,20)] with states [{A}],
    [frac = 0.8] and [minimum_time = 5s], [get_consolidated] returns one
    period, the slice [0:2], which is the whole timeline: 19.5 s of [A] over
    a span of 20 s; it does not return the two slices [0:0] and [2:2]. *)
Theorem get_consolidated_example :
  DatetimeHypnogram.get_consolidated abA ["A"%string] (4 # 5)%Q (seconds 5)
    = Ok [loc abA 0 2] /\
  loc abA 0 2 = abA /\
  sum (duration <$> (loc (Hypnogram.keep_states abA ["A"%string]) 0 2).*2)
    = millis 19500 /\
  index_range (loc abA 0 2) = Some (0, 2) /\
  series_max (end_time <$> (loc abA 0 2).*2) = Some (seconds 20) /\
  series_min (start_time <$> (loc abA 0 2).*2) = Some (seconds 0) /\
  DatetimeHypnogram.get_consolidated abA ["A"%string] (4 # 5)%Q (seconds 5)
    <> Ok [loc abA 0 0; loc abA 2 2].
Proof.
  repeat split; try (vm_compute; reflexivity).
  vm_compute. discriminate.
Qed.

(** ** Consolidated periods are maximal *)

Section maximal.
Variables (self bouts : frame) (frac : Q) (minimum_time : Z).

Lemma for_j_accepted (i : Z) (js : list Z) (s s' : DatetimeHypnogram.search)
    (ranges : list (Z * Z)) :
  DatetimeHypnogram.for_j self bouts frac minimum_time i js s = Ok s' ->
  (forall j, j ∈ js -> j ∈ index bouts) ->
  i ∈ index bouts ->
  DatetimeHypnogram.k s < i ->
  accepted self bouts s ranges ->
  exists ranges', accepted self bouts s' ranges'.
Proof.
  intros Hrun Hjs Hi Hk Hacc.
  induction js as [|j js IH]; simpl in Hrun.
  - injection Hrun as <-. by exists ranges.
  - destruct (Z.ltb_spec j (Z.max i (DatetimeHypnogram.k s))) as [|Hj].
    { injection Hrun as <-. by exists ranges. }
    destruct (_ <? minimum_time).
    { injection Hrun as <-. by exists ranges. }
    assert (forall j', j' ∈ js -> j' ∈ index bouts) as Hjs'.
    { intros j' Hj'. apply Hjs. by right. }
    destruct (series_max _) as [e|]; [|by apply IH].
    destruct (series_min _) as [b|]; [|by apply IH].
    destruct (DatetimeHypnogram.true_divide _ _) as [ratio|]; [|done].
    simpl in Hrun. destruct (float_ge ratio frac); [|by apply IH].
    injection Hrun as <-. exists (ranges ++ [(i, j)]).
    destruct Hacc as (Hm & Hall & Hsorted). split; [|split]; simpl.
    + by rewrite Hm, fmap_app.
    + apply Forall_app. split.
      * eapply Forall_impl; [exact Hall|]. simpl. intros r (? & ? & ? & ?).
        repeat split; try done. lia.
      * repeat constructor; simpl; try done; try lia. apply Hjs. by left.
    + apply StronglySorted_app_2; [|done|repeat constructor].
      intros r r' Hr ->%list_elem_of_singleton. simpl.
      rewrite Forall_forall in Hall. destruct (Hall r Hr) as (_ & _ & _ & ?). lia.
Qed.

Lemma for_i_accepted (todo : list Z) (s s' : DatetimeHypnogram.search)
    (ranges : list (Z * Z)) :
  DatetimeHypnogram.for_i self bouts frac minimum_time todo s = Ok s' ->
  (forall i, i ∈ todo -> i ∈ index bouts) ->
  accepted self bouts s ranges ->
  exists ranges', accepted self bouts s' ranges'.
Proof.
  revert s ranges. induction todo as [|i todo IH]; intros s ranges Hrun Hin Hacc;
    simpl in Hrun.
  - injection Hrun as <-. by exists ranges.
  - assert (forall i', i' ∈ todo -> i' ∈ index bouts) as Hin'.
    { intros i' Hi'. apply Hin. by right. }
    destruct (Z.leb_spec i (DatetimeHypnogram.k s)) as [|Hk].
    { by apply (IH s ranges). }
    destruct (DatetimeHypnogram.for_j _ _ _ _ _ _ _) as [s1|] eqn:Hj;
      [|discriminate].
    simpl in Hrun.
    destruct (for_j_accepted i _ s s1 ranges Hj) as (ranges1 & Hacc1);
      try done.
    + intros j Hj'. by apply elem_of_reverse.
    + apply Hin. by left.
    + by apply (IH s1 ranges1).
Qed.
End maximal.

Lemma foldr_min_spec (x : Z) (l : list Z) :
  foldr Z.min x l ∈ x :: l /\ forall y, y ∈ x :: l -> foldr Z.min x l <= y.
Proof.
  induction l as [|a l [Hin Hle]]; simpl.
  - split; [by left|]. intros y ->%list_elem_of_singleton. lia.
  - split.
    + destruct (Z.min_spec a (foldr Z.min x l)) as [[_ ->]|[_ ->]].
      * right. by left.
      * apply elem_of_cons in Hin as [->|Hin]; [by left|]. right. by right.
    + intros y Hy. rewrite !elem_of_cons in Hy.
      destruct Hy as [->|[->|Hy]].
      * specialize (Hle x ltac:(left)). lia.
      * lia.
      * specialize (Hle y ltac:(by right)). lia.
Qed.

Lemma foldr_max_spec (x : Z) (l : list Z) :
  foldr Z.max x l ∈ x :: l /\ forall y, y ∈ x :: l -> y <= foldr Z.max x l.
Proof.
  induction l as [|a l [Hin Hle]]; simpl.
  - split; [by left|]. intros y ->%list_elem_of_singleton. lia.
  - split.
    + destruct (Z.max_spec a (foldr Z.max x l)) as [[_ ->]|[_ ->]].
      * apply elem_of_cons in Hin as [->|Hin]; [by left|]. right. by right.
      * right. by left.
    + intros y Hy. rewrite !elem_of_cons in Hy.
      destruct Hy as [->|[->|Hy]].
      * specialize (Hle x ltac:(left)). lia.
      * lia.
      * specialize (Hle y ltac:(by right)). lia.
Qed.

Lemma series_min_eq (l : list Z) (m : Z) :
  m ∈ l -> (forall y, y ∈ l -> m <= y) -> series_min l = Some m.
Proof.
  destruct l as [|x l]; [by intros ?%elem_of_nil|]. intros Hm Hle. simpl.
  destruct (foldr_min_spec x l) as [Hin Hmin].
  f_equal. specialize (Hle _ Hin). specialize (Hmin _ Hm). lia.
Qed.

Lemma series_max_eq (l : list Z) (m : Z) :
  m ∈ l -> (forall y, y ∈ l -> y <= m) -> series_max l = Some m.
Proof.
  destruct l as [|x l]; [by intros ?%elem_of_nil|]. intros Hm Hle. simpl.
  destruct (foldr_max_spec x l) as [Hin Hmax].
  f_equal. specialize (Hle _ Hin). specialize (Hmax _ Hm). lia.
Qed.

Lemma elem_of_index_loc (self : frame) (i j z : Z) :
  z ∈ index (loc self i j) <-> z ∈ index self /\ i <= z <= j.
Proof.
  unfold index, loc. rewrite !list_elem_of_fmap. split.
  - intros (r & -> & [Hr Hb]%elem_of_bool_filter).
    apply andb_true_iff in Hb as [?%Z.leb_le ?%Z.leb_le]. eauto.
  - intros [(r & -> & Hr) [? ?]]. exists r. split; [done|].
    apply elem_of_bool_filter. split; [done|].
    apply andb_true_iff. by rewrite !Z.leb_le.
Qed.

Lemma index_range_loc (self : frame) (i j : Z) :
  i <= j -> i ∈ index self -> j ∈ index self ->
  index_range (loc self i j) = Some (i, j).
Proof.
  intros Hij Hi Hj. unfold index_range.
  rewrite (series_min_eq _ i), (series_max_eq _ j); [done|..].
  - apply elem_of_index_loc. split; [done | lia].
  - by intros y [_ [_ ?]]%elem_of_index_loc.
  - apply elem_of_index_loc. split; [done | lia].
  - by intros y [_ [? _]]%elem_of_index_loc.
Qed.

Lemma index_keep_states (self : frame) (states : list string) (z : Z) :
  z ∈ index (Hypnogram.keep_states self states) -> z ∈ index self.
Proof.
  unfold index. rewrite !list_elem_of_fmap. intros (r & -> & Hr).
  exists r. split; [done|].
  eapply elem_of_sublist; [exact Hr | apply getitem_mask_sublist].
Qed.

Lemma StronglySorted_lookup_lt {A} (R : relation A) (l : list A) (p q : nat)
    (x y : A) :
  StronglySorted R l -> (p < q)%nat -> l !! p = Some x -> l !! q = Some y -> R x y.
Proof.
  intros Hl. revert p q. induction Hl as [|a l Hl IH Ha]; intros p q Hpq Hp Hq.
  - done.
  - destruct q as [|q]; [lia|]. simpl in Hq. destruct p as [|p].
    + injection Hp as <-. rewrite Forall_forall in Ha.
      apply Ha. by eapply list_elem_of_lookup_2.
    + simpl in Hp. apply (IH p q); [lia|done|done].
Qed.

Lemma bool_filter_none {A} (p : A -> bool) (l : list A) :
  Forall (fun x => p x = false) l -> List.filter p l = [].
Proof. induction 1 as [|x l Hx _ IH]; simpl; [done|]. by rewrite Hx. Qed.

Lemma bool_filter_all {A} (p : A -> bool) (l : list A) :
  Forall (fun x => p x = true) l -> List.filter p l = l.
Proof. induction 1 as [|x l Hx _ IH]; simpl; [done|]. by rewrite Hx, IH. Qed.

(** On an index that increases, the label slice is the run of rows from
    the position of the first label to the position of the second, which is
    how pandas evaluates it. *)
Lemma loc_positions (self : frame) (a b : nat) (ra rb : row) :
  StronglySorted Z.lt (index self) ->
  self !! a = Some ra -> self !! b = Some rb ->
  loc self ra.1 rb.1 = take (S b - a) (drop a self).
Proof.
  intros Hs%StronglySorted_fmap_inv Ha Hb.
  assert (forall (p q : nat) (x y : row),
            self !! p = Some x -> self !! q = Some y ->
            (p < q)%nat -> x.1 < y.1) as Hlt.
  { intros p q x y Hp Hq Hpq.
    exact (StronglySorted_lookup_lt _ _ _ _ _ _ Hs Hpq Hp Hq). }
  unfold loc. destruct (Nat.le_gt_cases a b) as [Hab|Hab].
  - rewrite <- (take_drop a self) at 1.
    rewrite <- (take_drop (S b - a) (drop a self)) at 1.
    rewrite !List.filter_app.
    rewrite (bool_filter_none _ (take a self)), (bool_filter_all _ (take _ _)),
      (bool_filter_none _ (drop _ _)); [by rewrite app_nil_r|..].
    + apply Forall_lookup. intros q x Hq. rewrite lookup_drop, lookup_drop in Hq.
      pose proof (Hlt b _ rb x Hb Hq ltac:(lia)).
      apply andb_false_iff. right. apply Z.leb_gt. lia.
    + apply Forall_lookup. intros q x [Hq Hqb]%lookup_take_Some.
      rewrite lookup_drop in Hq.
      apply andb_true_iff. rewrite !Z.leb_le. split.
      * destruct q as [|q].
        -- rewrite Nat.add_0_r, Ha in Hq. by injection Hq as <-.
        -- pose proof (Hlt a _ ra x Ha Hq ltac:(lia)). lia.
      * destruct (decide (a + q = b)%nat) as [Heq|Hne].
        -- rewrite Heq, Hb in Hq. by injection Hq as <-.
        -- pose proof (Hlt _ b x rb Hq Hb ltac:(lia)). lia.
    + apply Forall_lookup. intros q x [Hq Hqa]%lookup_take_Some.
      pose proof (Hlt q a x ra Hq Ha Hqa).
      apply andb_false_iff. left. apply Z.leb_gt. lia.
  - replace (S b - a)%nat with 0%nat by lia. rewrite take_0.
    pose proof (Hlt b a rb ra Hb Ha Hab).
    apply bool_filter_none, Forall_forall. intros x _.
    destruct (Z.leb_spec ra.1 x.1); [|done]. simpl. apply Z.leb_gt. lia.
Qed.

Lemma get_consolidated_accepted (self : frame) (states : list string) (frac : Q)
    (minimum_time : Z) (periods : list frame) :
  DatetimeHypnogram.get_consolidated self states frac minimum_time = Ok periods ->
  exists ranges : list (Z * Z),
    periods = (fun r => loc self r.1 r.2) <$> ranges /\
    Forall (fun r => r.1 <= r.2 /\ r.1 ∈ index self /\ r.2 ∈ index self) ranges /\
    StronglySorted (fun r r' => r.2 < r'.1) ranges.
Proof.
  unfold DatetimeHypnogram.get_consolidated.
  destruct (negb _); [done|].
  destruct (series_min _) as [m|].
  - destruct (DatetimeHypnogram.for_i _ _ _ _ _ _) as [s|] eqn:Hrun; [|done].
    simpl. intros [= <-].
    destruct (for_i_accepted _ _ _ _ _ _ _ [] Hrun) as (ranges & Hm & Hall & Hs).
    + done.
    + split; [done|]. split; constructor.
    + exists ranges. split; [done|]. split; [|done].
      eapply Forall_impl; [exact Hall|]. simpl. intros r (? & ? & ? & _).
      eauto using index_keep_states.
  - intros [= <-]. exists []. split; [done|]. split; constructor.
Qed.

Lemma index_DataFrame_sorted (bs : list bout) :
  StronglySorted Z.lt (index (DataFrame bs)).
Proof.
  unfold DataFrame. rewrite index_reindex.
  apply (StronglySorted_fmap _ lt); [lia | apply StronglySorted_lt_seq].
Qed.

(** C2: on a timeline whose labels increase, the periods that
    [get_consolidated] returns are slices [self.loc[i:j]] of index ranges
    [[i, j]], and for two of them, at different places of the returned
    list, the range of the one is never a sub-range of the range of the
    other. *)
Theorem get_consolidated_maximal (self : frame) (states : list string)
    (frac : Q) (minimum_time : Z) (periods : list frame) :
  StronglySorted Z.lt (index self) ->
  DatetimeHypnogram.get_consolidated self states frac minimum_time = Ok periods ->
  forall (p q : nat) (a b : frame),
    p <> q -> periods !! p = Some a -> periods !! q = Some b ->
    exists ra rb : Z * Z,
      index_range a = Some ra /\ index_range b = Some rb /\
      a = loc self ra.1 ra.2 /\ b = loc self rb.1 rb.2 /\
      ~ sub_range ra rb.
Proof.
  intros _ (ranges & -> & Hall & Hs)%get_consolidated_accepted p q a b Hpq Ha Hb.
  rewrite list_lookup_fmap in Ha, Hb.
  destruct (ranges !! p) as [ra|] eqn:Hra; [|done].
  destruct (ranges !! q) as [rb|] eqn:Hrb; [|done].
  injection Ha as <-. injection Hb as <-.
  rewrite Forall_forall in Hall.
  destruct (Hall ra) as (? & ? & ?); [by eapply list_elem_of_lookup_2|].
  destruct (Hall rb) as (? & ? & ?); [by eapply list_elem_of_lookup_2|].
  exists ra, rb. rewrite !index_range_loc by done.
  destruct ra as [ia ja], rb as [ib jb]. simpl in *.
  repeat split; try done. unfold sub_range. simpl.
  destruct (Nat.lt_total p q) as [Hlt|[->|Hlt]]; [|done|].
  - pose proof (StronglySorted_lookup_lt _ _ _ _ _ _ Hs Hlt Hra Hrb). simpl in *. lia.
  - pose proof (StronglySorted_lookup_lt _ _ _ _ _ _ Hs Hlt Hrb Hra). simpl in *. lia.
Qed.

Lemma get_consolidated_maximal_witness :
  StronglySorted Z.lt (index aBa) /\
  DatetimeHypnogram.get_consolidated aBa ["A"%string] (4 # 5)%Q (seconds 5)
    = Ok [loc aBa 0 0; loc aBa 2 2] /\
  ~ sub_range (0, 0) (2, 2) /\ ~ sub_range (2, 2) (0, 0).
Proof.
  assert (StronglySorted Z.lt (index aBa)) as Hi by apply index_DataFrame_sorted.
  assert (DatetimeHypnogram.get_consolidated aBa ["A"%string] (4 # 5)%Q (seconds 5)
          = Ok [loc aBa 0 0; loc aBa 2 2]) as H by reflexivity.
  split; [exact Hi|]. split; [exact H|]. split.
  - destruct (get_consolidated_maximal _ _ _ _ _ Hi H 0%nat 1%nat _ _
                ltac:(discriminate) eq_refl eq_refl)
      as (ra & rb & Ha & Hb & _ & _ & Hn).
    injection Ha as <-. injection Hb as <-. exact Hn.
  - destruct (get_consolidated_maximal _ _ _ _ _ Hi H 1%nat 0%nat _ _
                ltac:(discriminate) eq_refl eq_refl)
      as (ra & rb & Ha & Hb & _ & _ & Hn).
    injection Ha as <-. injection Hb as <-. exact Hn.
Defined.

(** * Further properties *)

(** ** Masking by state *)

Lemma isin_elem_of (states : list string) (s : string) :
  isin states s = true <-> s ∈ states.
Proof. apply existsb_eqb_elem_of. Qed.

Lemma keep_states_filter (self : frame) (states : list string) :
  Hypnogram.keep_states self states
  = List.filter (fun r => isin states (state r.2)) self.
Proof. apply getitem_mask_map. Qed.

Lemma elem_of_keep_states (self : frame) (states : list string) (r : row) :
  r ∈ Hypnogram.keep_states self states <-> r ∈ self /\ state r.2 ∈ states.
Proof. by rewrite keep_states_filter, elem_of_bool_filter, isin_elem_of. Qed.

Lemma covers_true (self : frame) (t : Z) :
  covers self t = true <-> exists r, r ∈ self /\ contains r.2 t.
Proof.
  unfold covers. rewrite existsb_exists. split.
  - intros (r & Hr & Hc). exists r. by rewrite list_elem_of_In, <- containsb_contains.
  - intros (r & Hr & Hc). exists r. by rewrite <- list_elem_of_In, containsb_contains.
Qed.

Lemma mask_times_by_state_covers (self : frame) (times : list Z)
    (states : list string) :
  Hypnogram.mask_times_by_state self times states
  = map (covers (Hypnogram.keep_states self states)) times.
Proof. apply (covers_time_covers (Hypnogram.keep_states self states)). Qed.

(** X1: [mask_times_by_state] returns one boolean per time, true exactly
    where the time lies in the closed interval of a bout whose state is one
    of [states]. *)
Theorem mask_times_by_state_spec (self : frame) (times : list Z)
    (states : list string) :
  length (Hypnogram.mask_times_by_state self times states) = length times /\
  forall (p : nat) (t : Z),
    times !! p = Some t ->
    exists m : bool,
      Hypnogram.mask_times_by_state self times states !! p = Some m /\
      (m = true <->
       exists r, r ∈ self /\ state r.2 ∈ states /\
                 start_time r.2 <= t <= end_time r.2).
Proof.
  rewrite mask_times_by_state_covers. split; [by rewrite length_map|].
  intros p t Hp. eexists. rewrite list_lookup_fmap, Hp. split; [done|].
  rewrite covers_true. split.
  - intros (r & [Hr Hs]%elem_of_keep_states & Hc). by exists r.
  - intros (r & Hr & Hs & Hc). exists r. by rewrite elem_of_keep_states.
Qed.

(** X2: a time that is masked for some states is covered; and a covered
    time whose label, as [get_states] gives it, is one of the states is
    masked for these states. *)
Theorem mask_between_label_and_cover (self : frame) (times : list Z)
    (states : list string) (p : nat) :
  (Hypnogram.mask_times_by_state self times states !! p = Some true ->
   Hypnogram.covers_time self times !! p = Some true) /\
  (forall σ : string,
     Hypnogram.covers_time self times !! p = Some true ->
     Hypnogram.get_states self times !! p = Some σ ->
     σ ∈ states ->
     Hypnogram.mask_times_by_state self times states !! p = Some true).
Proof.
  rewrite mask_times_by_state_covers, covers_time_covers, get_states_label.
  rewrite !list_lookup_fmap. destruct (times !! p) as [t|]; simpl; [|done].
  split.
  - intros [= (r & [Hr _]%elem_of_keep_states & Hc)%covers_true].
    f_equal. apply covers_true. by exists r.
  - intros σ [= (r0 & Hr0 & Hc0)%covers_true] [= Hl] Hσ. f_equal.
    apply covers_true. unfold label in Hl.
    destruct (last _) as [r|] eqn:E.
    + apply last_Some_elem_of, elem_of_bool_filter in E as [Hr Hc].
      exists r. rewrite elem_of_keep_states, Hl, <- containsb_contains. done.
    + apply last_None in E.
      assert (r0 ∈ List.filter (containsb t) self) as Hin.
      { apply elem_of_bool_filter. by rewrite containsb_contains. }
      rewrite E in Hin. by apply elem_of_nil in Hin.
Qed.

(** X3: a time that no bout covers gets the empty label; so a label that is
    not empty is only given to a covered time. *)
Theorem label_needs_cover (self : frame) (times : list Z) (p : nat) (σ : string) :
  Hypnogram.get_states self times !! p = Some σ ->
  σ <> ""%string ->
  Hypnogram.covers_time self times !! p = Some true.
Proof.
  rewrite covers_time_covers, get_states_label, !list_lookup_fmap.
  destruct (times !! p) as [t|]; simpl; [|done]. intros [= <-] Hne. f_equal.
  unfold label in Hne. destruct (last _) as [r|] eqn:E; [|done].
  apply last_Some_elem_of, elem_of_bool_filter in E as [Hr Hc].
  apply covers_true. exists r. by rewrite <- containsb_contains.
Qed.

Lemma label_needs_cover_witness :
  Hypnogram.get_states a_gap_b [seconds 3] !! 0%nat = Some "A"%string /\
  Hypnogram.covers_time a_gap_b [seconds 3] !! 0%nat = Some true.
Proof.
  assert (Hypnogram.get_states a_gap_b [seconds 3] !! 0%nat = Some "A"%string)
    as H by reflexivity.
  split; [exact H|].
  apply (label_needs_cover _ _ _ _ H). discriminate.
Defined.

(** ** Filters compose *)

Lemma bool_filter_filter {A} (p q : A -> bool) (l : list A) :
  List.filter p (List.filter q l) = List.filter (fun x => q x && p x) l.
Proof.
  induction l as [|x l IH]; simpl; [done|].
  destruct (q x); simpl; [|done]. destruct (p x); by rewrite IH.
Qed.

Lemma bool_filter_ext {A} (p q : A -> bool) (l : list A) :
  (forall x, p x = q x) -> List.filter p l = List.filter q l.
Proof. intros H. induction l as [|x l IH]; simpl; [done|]. by rewrite H, IH. Qed.

Lemma keep_longer_filter (self : frame) (d : Z) :
  DatetimeHypnogram.keep_longer self d
  = List.filter (fun r => d <? duration r.2) self.
Proof. apply getitem_mask_map. Qed.

(** X4: [keep_states] keeps exactly the bouts whose state is listed.
    Applied twice it keeps the bouts whose state is in both lists, in either
    order of the two calls, and it commutes with [keep_longer]. *)
Theorem keep_states_composes (self : frame) (s1 s2 : list string) (d : Z) :
  (forall r, r ∈ Hypnogram.keep_states self s1 <-> r ∈ self /\ state r.2 ∈ s1) /\
  Hypnogram.keep_states (Hypnogram.keep_states self s1) s2
    = Hypnogram.keep_states self (List.filter (isin s2) s1) /\
  Hypnogram.keep_states (Hypnogram.keep_states self s1) s2
    = Hypnogram.keep_states (Hypnogram.keep_states self s2) s1 /\
  DatetimeHypnogram.keep_longer (Hypnogram.keep_states self s1) d
    = Hypnogram.keep_states (DatetimeHypnogram.keep_longer self d) s1.
Proof.
  split; [intros r; apply elem_of_keep_states|].
  rewrite !keep_states_filter, !keep_longer_filter, !bool_filter_filter.
  split; [|split].
  - apply bool_filter_ext. intros r.
    apply eq_true_iff_eq. rewrite andb_true_iff, !isin_elem_of.
    rewrite elem_of_bool_filter, isin_elem_of. tauto.
  - apply bool_filter_ext. intros r. apply andb_comm.
  - apply bool_filter_ext. intros r. apply andb_comm.
Qed.

(** X5: [keep_longer] keeps exactly the bouts whose duration is strictly
    above the threshold, and two thresholds in a row act as the larger
    one. *)
Theorem keep_longer_composes (self : frame) (d1 d2 : Z) :
  (forall r, r ∈ DatetimeHypnogram.keep_longer self d1 <->
             r ∈ self /\ d1 < duration r.2) /\
  DatetimeHypnogram.keep_longer (DatetimeHypnogram.keep_longer self d1) d2
    = DatetimeHypnogram.keep_longer self (Z.max d1 d2).
Proof.
  rewrite !keep_longer_filter, bool_filter_filter. split.
  - intros r. by rewrite elem_of_bool_filter, Z.ltb_lt.
  - apply bool_filter_ext. intros r. apply eq_true_iff_eq.
    rewrite andb_true_iff, !Z.ltb_lt. lia.
Qed.

(** ** [keep_last] and [keep_first] *)

Lemma getitem_mask_app {A} (l1 l2 : list A) (m1 m2 : list bool) :
  length l1 = length m1 ->
  getitem_mask (l1 ++ l2) (m1 ++ m2) = getitem_mask l1 m1 ++ getitem_mask l2 m2.
Proof.
  revert m1. induction l1 as [|a l1 IH]; intros [|b m1] Hlen; simpl in *;
    try done.
  rewrite IH by lia. by destruct b.
Qed.

Lemma getitem_mask_reverse {A} (l : list A) (m : list bool) :
  length l = length m ->
  getitem_mask (reverse l) (reverse m) = reverse (getitem_mask l m).
Proof.
  revert m. induction l as [|a l IH]; intros [|b m] Hlen; simpl in *; try done.
  rewrite !reverse_cons, getitem_mask_app by (rewrite !length_reverse; lia).
  rewrite IH by lia. destruct b; simpl.
  - by rewrite reverse_cons.
  - by rewrite app_nil_r.
Qed.

Lemma length_cumsum_from (acc : Z) (l : list Z) :
  length (cumsum_from acc l) = length l.
Proof. revert acc. induction l as [|x l IH]; intros acc; simpl; [done|]. by rewrite IH. Qed.

Lemma sum_app (l1 l2 : list Z) : sum (l1 ++ l2) = sum l1 + sum l2.
Proof. induction l1 as [|x l1 IH]; simpl; [done|]. unfold sum in *. simpl. lia. Qed.

Lemma sum_reverse (l : list Z) : sum (reverse l) = sum l.
Proof.
  induction l as [|x l IH]; [done|].
  rewrite reverse_cons, sum_app, IH. unfold sum. simpl. lia.
Qed.

Lemma map_reverse {A B} (f : A -> B) (l : list A) :
  map f (reverse l) = reverse (map f l).
Proof.
  induction l as [|x l IH]; [done|].
  simpl. by rewrite !reverse_cons, map_app, IH.
Qed.

Lemma keep_last_as_keep_first (self : frame) (budget : Z) :
  DatetimeHypnogram.keep_last self budget
  = reverse (DatetimeHypnogram.keep_first (reverse self) budget).
Proof.
  unfold DatetimeHypnogram.keep_last, DatetimeHypnogram.keep_first.
  rewrite <- getitem_mask_reverse.
  - rewrite reverse_involutive, !fmap_reverse. reflexivity.
  - unfold cumsum.
    by rewrite length_reverse, length_map, length_cumsum_from, !length_fmap,
      length_reverse.
Qed.

(** X6: [keep_last] is [keep_first] read from the end: it keeps the bouts
    that [keep_first] keeps of the reversed timeline, and [keep_first] keeps
    those that [keep_last] keeps of it. *)
Theorem keep_last_reverse (self : frame) (budget : Z) :
  DatetimeHypnogram.keep_last self budget
    = reverse (DatetimeHypnogram.keep_first (reverse self) budget) /\
  DatetimeHypnogram.keep_first self budget
    = reverse (DatetimeHypnogram.keep_last (reverse self) budget).
Proof.
  split; [apply keep_last_as_keep_first|].
  by rewrite keep_last_as_keep_first, !reverse_involutive.
Qed.

(** X7: on a timeline whose durations are all non-negative and sum to
    less than 2^63 ns, [keep_last] returns a suffix, the last [n] bouts.
    Their durations sum to at most the budget, provided the budget is not
    negative or something is kept; and when a bout is left out, the kept
    durations together with the duration of the last bout left out exceed
    the budget. *)
Theorem keep_last_suffix (self : frame) (budget : Z) :
  Forall (fun r => 0 <= duration r.2) self ->
  sum (duration <$> self.*2) < 2 ^ 63 ->
  exists n : nat,
    DatetimeHypnogram.keep_last self budget = drop (length self - n) self /\
    (0 <= budget \/ DatetimeHypnogram.keep_last self budget <> [] ->
       sum (duration <$> (DatetimeHypnogram.keep_last self budget).*2) <= budget) /\
    (forall r, (n < length self)%nat ->
       self !! (length self - S n)%nat = Some r ->
       budget <
         sum (duration <$> (DatetimeHypnogram.keep_last self budget).*2)
         + duration r.2).
Proof.
  intros Hnn Hfit.
  assert (Forall (fun r : row => 0 <= duration r.2) (reverse self)) as Hnn'.
  { by apply Forall_reverse. }
  destruct (keep_first_from (reverse self) budget 0 Hnn') as (n & Hk & _ & Hs & Hx).
  assert (DatetimeHypnogram.keep_last self budget = drop (length self - n) self)
    as Hlast.
  { rewrite keep_last_as_keep_first.
    rewrite (proj2 (keep_first_running (reverse self) budget Hnn'
                      ltac:(by rewrite !fmap_reverse, sum_reverse))).
    rewrite Hk, reverse_take, length_reverse, reverse_involutive. done. }
  assert (sum (duration <$> (DatetimeHypnogram.keep_last self budget).*2)
          = sum (duration <$> (take n (reverse self)).*2)) as Hsum.
  { rewrite Hlast, <- (reverse_involutive (drop _ self)), reverse_drop.
    rewrite !fmap_reverse, sum_reverse.
    destruct (Nat.le_gt_cases n (length self)).
    - by replace (length self - (length self - n))%nat with n by lia.
    - rewrite !take_ge; [done | rewrite length_reverse; lia
                              | rewrite length_reverse; lia]. }
  exists n. split; [done|]. rewrite Hsum. split.
  - intros H. destruct n as [|n].
    + rewrite take_0. destruct H as [H|H]; [done|].
      rewrite Hlast, Nat.sub_0_r, drop_all in H. done.
    + specialize (Hs ltac:(lia)). lia.
  - intros r Hn Hr. specialize (Hx r). rewrite reverse_lookup in Hx by done.
    specialize (Hx Hr). lia.
Qed.

Lemma keep_last_suffix_witness :
  Forall (fun r : row => 0 <= duration r.2) abA /\
  sum (duration <$> abA.*2) < 2 ^ 63 /\
  exists n : nat,
    DatetimeHypnogram.keep_last abA (seconds 10) = drop (length abA - n) abA /\
    sum (duration <$> (DatetimeHypnogram.keep_last abA (seconds 10)).*2)
      <= seconds 10.
Proof.
  assert (Forall (fun r : row => 0 <= duration r.2) abA) as H.
  { repeat constructor; vm_compute; discriminate. }
  assert (sum (duration <$> abA.*2) < 2 ^ 63) as Hfit by reflexivity.
  split; [exact H|]. split; [exact Hfit|].
  destruct (keep_last_suffix abA (seconds 10) H Hfit) as (n & Hk & Hs & _).
  exists n. split; [exact Hk|]. apply Hs. left. vm_compute. discriminate.
Defined.

(** A budget below the running sum keeps nothing of what follows. *)
Lemma keep_first_from_over (self : frame) (budget acc : Z) :
  Forall (fun r => 0 <= duration r.2) self ->
  budget < acc ->
  getitem_mask self
    (map (fun c => c <=? budget) (running_from acc (duration <$> self.*2))) = [].
Proof.
  intros Hnn Hlt. apply getitem_mask_none, Forall_fmap.
  eapply Forall_impl; [apply (running_from_ge acc)|].
  - apply Forall_fmap, Forall_fmap. by eapply Forall_impl; [exact Hnn|].
  - simpl. intros c Hc. apply Z.leb_gt. lia.
Qed.

Lemma keep_first_from_twice (self : frame) (b1 b2 acc : Z) :
  Forall (fun r => 0 <= duration r.2) self ->
  let kept := getitem_mask self
    (map (fun c => c <=? b2) (running_from acc (duration <$> self.*2))) in
  getitem_mask kept
    (map (fun c => c <=? b1) (running_from acc (duration <$> kept.*2)))
  = getitem_mask self
      (map (fun c => c <=? Z.min b1 b2)
           (running_from acc (duration <$> self.*2))).
Proof.
  revert acc. induction self as [|r self IH]; intros acc Hnn; [done|].
  inversion Hnn as [|? ? Hr Hnn']; subst. csimpl.
  destruct (Z.leb_spec (acc + duration r.2) b2) as [H2|H2].
  - csimpl. specialize (IH (acc + duration r.2) Hnn'). simpl in IH.
    destruct (Z.leb_spec (acc + duration r.2) b1) as [H1|H1].
    + rewrite (proj2 (Z.leb_le _ (Z.min b1 b2))) by lia. by rewrite IH.
    + rewrite (proj2 (Z.leb_gt _ (Z.min b1 b2))) by lia.
      rewrite !keep_first_from_over; try done; try lia.
      eapply Forall_forall. intros x Hx.
      eapply elem_of_sublist in Hx; [|apply getitem_mask_sublist].
      rewrite Forall_forall in Hnn'. by apply Hnn'.
  - rewrite (proj2 (Z.leb_gt _ (Z.min b1 b2))) by lia.
    rewrite !(keep_first_from_over self) by (done || lia). done.
Qed.

Lemma sublist_fmap' {A B} (f : A -> B) (l1 l2 : list A) :
  l1 `sublist_of` l2 -> f <$> l1 `sublist_of` f <$> l2.
Proof. induction 1; csimpl; by constructor. Qed.

Lemma sum_sublist_le (k l : list Z) :
  Forall (fun d => 0 <= d) l -> k `sublist_of` l -> sum k <= sum l.
Proof.
  intros Hl Hsub. induction Hsub as [|x k l _ IH|x k l _ IH]; [done|..];
    inversion Hl; subst; rewrite ?sum_cons; specialize (IH ltac:(done)); lia.
Qed.

(** X8: on a timeline whose durations are all non-negative and sum to less
    than 2^63 ns, two budgets in a row act as the smaller one: [keep_first]
    of what [keep_first] kept is [keep_first] with the minimum of the two
    budgets. *)
Theorem keep_first_twice (self : frame) (b1 b2 : Z) :
  Forall (fun r => 0 <= duration r.2) self ->
  sum (duration <$> self.*2) < 2 ^ 63 ->
  DatetimeHypnogram.keep_first (DatetimeHypnogram.keep_first self b2) b1
  = DatetimeHypnogram.keep_first self (Z.min b1 b2).
Proof.
  intros Hnn Hfit.
  assert (DatetimeHypnogram.keep_first self b2 `sublist_of` self) as Hsub
    by apply getitem_mask_sublist.
  assert (Forall (fun r : row => 0 <= duration r.2)
            (DatetimeHypnogram.keep_first self b2)) as Hnn2.
  { apply Forall_forall. intros x Hx. rewrite Forall_forall in Hnn.
    apply Hnn. by eapply elem_of_sublist. }
  assert (sum (duration <$> (DatetimeHypnogram.keep_first self b2).*2) < 2 ^ 63)
    as Hfit2.
  { eapply Z.le_lt_trans; [|exact Hfit]. apply sum_sublist_le.
    - apply Forall_fmap, Forall_fmap. by eapply Forall_impl; [exact Hnn|].
    - by apply sublist_fmap', sublist_fmap'. }
  rewrite (proj2 (keep_first_running _ b1 Hnn2 Hfit2)).
  rewrite !(proj2 (keep_first_running self _ Hnn Hfit)).
  by apply (keep_first_from_twice self b1 b2 0).
Qed.

Lemma keep_first_twice_witness :
  DatetimeHypnogram.keep_first (DatetimeHypnogram.keep_first abA (seconds 15))
    (seconds 10)
  = DatetimeHypnogram.keep_first abA (Z.min (seconds 10) (seconds 15)).
Proof.
  apply keep_first_twice; [|reflexivity].
  repeat constructor; vm_compute; discriminate.
Defined.

(** ** [keep_between] *)

Lemma elem_of_getitem_seq (m : list bool) (j p : nat) :
  p ∈ getitem_mask (seq j (length m)) m <->
  (j <= p)%nat /\ m !! (p - j)%nat = Some true.
Proof.
  revert j. induction m as [|b m IH]; intros j; simpl.
  - rewrite elem_of_nil. split; [done | by intros [_ ?]].
  - assert (p ∈ getitem_mask (seq (S j) (length m)) m <->
            (j < p)%nat /\ (b :: m) !! (p - j)%nat = Some true) as IH'.
    { rewrite IH. split.
      - intros [? Hm]. split; [lia|].
        by replace (p - j)%nat with (S (p - S j)) by lia.
      - intros [? Hm]. split; [lia|].
        by replace (p - j)%nat with (S (p - S j)) in Hm by lia. }
    destruct b.
    + rewrite elem_of_cons, IH'. split.
      * intros [->|[? ?]]; [|split; [lia|done]].
        split; [lia|]. by rewrite Nat.sub_diag.
      * intros [Hle Hm]. destruct (decide (p = j)) as [->|]; [by left|].
        right. split; [lia | done].
    + rewrite IH'. split.
      * intros [? ?]. split; [lia | done].
      * intros [Hle Hm]. split; [|done].
        destruct (decide (p = j)) as [->|]; [|lia].
        by rewrite Nat.sub_diag in Hm.
Qed.

Lemma elem_of_nonzero (m : list bool) (p : nat) :
  p ∈ DatetimeHypnogram.nonzero m <-> m !! p = Some true.
Proof.
  unfold DatetimeHypnogram.nonzero. rewrite elem_of_getitem_seq, Nat.sub_0_r.
  split; [by intros [_ ?] | intros; split; [lia | done]].
Qed.

Lemma bool_filter_seq_bound (P : nat -> bool) (n k : nat) :
  (forall p, P p = true -> (p < n)%nat) -> (n <= k)%nat ->
  List.filter P (seq 0 k) = List.filter P (seq 0 n).
Proof.
  intros HP Hle. replace k with (n + (k - n))%nat by lia.
  rewrite seq_app, List.filter_app.
  replace (List.filter P (seq (0 + n) (k - n))) with (@nil nat);
    [by rewrite app_nil_r|].
  symmetry. apply elem_of_nil_inv. intros p [Hp HPp]%elem_of_bool_filter.
  apply elem_of_seq in Hp. specialize (HP p HPp). lia.
Qed.

Lemma iloc_array_filter_seq (P : nat -> bool) (pre self : frame) :
  iloc_array (pre ++ self) (List.filter P (seq (length pre) (length self)))
  = Ok (getitem_mask self (map P (seq (length pre) (length self)))).
Proof.
  revert pre. induction self as [|x self IH]; intros pre; [done|].
  specialize (IH (pre ++ [x])). rewrite <- app_assoc, length_app in IH.
  simpl in IH. rewrite Nat.add_1_r in IH. simpl.
  destruct (P (length pre)); [|done].
  cbn [iloc_array]. rewrite list_lookup_middle by done. by rewrite IH.
Qed.

Lemma lookup_map {A B} (f : A -> B) (l : list A) (i : nat) :
  map f l !! i = f <$> l !! i.
Proof. apply list_lookup_fmap. Qed.

(** X9: [keep_between] never fails, and it keeps exactly the bouts whose
    [start_time] and whose [end_time] both have their time of day in the
    window, in the order of the timeline. *)
Theorem keep_between_spec (self : frame) (start_micros end_micros : Z) :
  DatetimeHypnogram.keep_between self start_micros end_micros
  = Ok (List.filter
          (fun r => between_time start_micros end_micros (start_time r.2)
                    && between_time start_micros end_micros (end_time r.2))
          self).
Proof.
  unfold DatetimeHypnogram.keep_between, DatetimeHypnogram.intersect1d,
    DatetimeHypnogram.indexer_between_time.
  set (ms := map _ (start_time <$> self.*2)).
  set (me := map _ (end_time <$> self.*2)).
  set (P := fun p : nat => _ && _).
  assert (length ms = length self) as Hls
    by (unfold ms; by rewrite length_map, !length_fmap).
  assert (length me = length self) as Hle
    by (unfold me; by rewrite length_map, !length_fmap).
  assert (forall p, P p = true <-> ms !! p = Some true /\ me !! p = Some true) as HP.
  { intros p. unfold P.
    by rewrite andb_true_iff, !existsb_eqb_nat, !elem_of_nonzero. }
  assert (List.filter P (seq 0 (S (foldr Nat.max 0%nat (DatetimeHypnogram.nonzero ms))))
          = List.filter P (seq 0 (length self))) as ->.
  { destruct (Nat.le_ge_cases (S (foldr Nat.max 0%nat (DatetimeHypnogram.nonzero ms)))
                (length self)) as [Hc|Hc].
    - symmetry. apply bool_filter_seq_bound; [|done].
      intros p [Hp _]%HP. apply elem_of_nonzero in Hp.
      assert (forall (l : list nat) x, x ∈ l -> (x <= foldr Nat.max 0 l)%nat) as Hmax.
      { clear. induction l as [|y l IH]; intros x Hx; [by apply elem_of_nil in Hx|].
        simpl. apply elem_of_cons in Hx as [->|Hx]; [lia|].
        specialize (IH x Hx). lia. }
      specialize (Hmax _ _ Hp). lia.
    - apply bool_filter_seq_bound; [|done].
      intros p [Hp _]%HP. apply lookup_lt_Some in Hp. lia. }
  rewrite (iloc_array_filter_seq P [] self
           : iloc_array self (List.filter P (seq 0 (length self))) = _).
  f_equal.
  rewrite <- getitem_mask_map. f_equal.
  apply list_eq. intros p. change (length (@nil row)) with 0%nat.
  destruct (self !! p) as [r|] eqn:Hr.
  - assert (p < length self)%nat as Hp by (by eapply lookup_lt_Some).
    rewrite !lookup_map.
    rewrite lookup_seq_lt by done. rewrite Hr. simpl. f_equal.
    apply eq_true_iff_eq. rewrite HP. unfold ms, me.
    rewrite !lookup_map, ?list_lookup_fmap, Hr.
    simpl. unfold between_time.
    destruct (start_micros <=? end_micros); rewrite andb_true_iff;
      split; intros [H1 H2]; split; congruence.
  - apply lookup_ge_None in Hr.
    rewrite !lookup_map.
    rewrite lookup_seq_ge by done. apply lookup_ge_None in Hr. by rewrite Hr.
Qed.

(** ** What [get_consolidated] returns *)

Lemma loc_keep_states (self : frame) (states : list string) (i j : Z) :
  loc (Hypnogram.keep_states self states) i j
  = Hypnogram.keep_states (loc self i j) states.
Proof.
  unfold loc. rewrite !keep_states_filter, !bool_filter_filter.
  apply bool_filter_ext. intros r. apply andb_comm.
Qed.

(** One run of the inner loop leaves the variables as they are or appends
    one slice, which meets the thresholds, while the ends tried before it
    did not. *)
Lemma for_j_step (self : frame) (states : list string) (frac : Q)
    (minimum_time i : Z) (js : list Z) (s s' : DatetimeHypnogram.search) :
  DatetimeHypnogram.for_j self (Hypnogram.keep_states self states) frac
    minimum_time i js s = Ok s' ->
  s' = s \/
  exists j later earlier,
    js = later ++ j :: earlier /\
    Forall (fun j' => ~ consolidated (loc self i j') states frac minimum_time)
      later /\
    Z.max i (DatetimeHypnogram.k s) <= j /\
    consolidated (loc self i j) states frac minimum_time /\
    s' = DatetimeHypnogram.Search j
           (DatetimeHypnogram.matches s ++ [loc self i j]).
Proof.
  induction js as [|j js IH]; simpl.
  - intros [= <-]. by left.
  - destruct (Z.ltb_spec j (Z.max i (DatetimeHypnogram.k s))) as [|Hj].
    { intros [= <-]. by left. }
    destruct (Z.ltb_spec (Z.max (sum (duration <$>
                (loc (Hypnogram.keep_states self states) i j).*2)) (seconds 0))
              minimum_time) as [|Hmin].
    { intros [= <-]. by left. }
    assert (~ consolidated (loc self i j) states frac minimum_time ->
            DatetimeHypnogram.for_j self (Hypnogram.keep_states self states)
              frac minimum_time i js s = Ok s' ->
            s' = s \/
            exists j' later earlier,
              j :: js = later ++ j' :: earlier /\
              Forall (fun j' => ~ consolidated (loc self i j') states frac
                                   minimum_time) later /\
              Z.max i (DatetimeHypnogram.k s) <= j' /\
              consolidated (loc self i j') states frac minimum_time /\
              s' = DatetimeHypnogram.Search j'
                     (DatetimeHypnogram.matches s ++ [loc self i j'])) as Hnext.
    { intros Hno [->|(j' & later & earlier & -> & Hl & ?)]%IH; [by left|].
      right. exists j', (j :: later), earlier. split; [done|].
      split; [by constructor | done]. }
    destruct (series_max _) as [e|] eqn:He.
    2: { apply Hnext. intros (_ & e & b & ? & He' & _). congruence. }
    destruct (series_min _) as [b|] eqn:Hb.
    2: { apply Hnext. intros (_ & e' & b & ? & _ & Hb' & _). congruence. }
    change (seconds 0) with 0.
    destruct (DatetimeHypnogram.true_divide _ _) as [ratio|] eqn:Hdiv; [|done].
    simpl. destruct (float_ge ratio frac) eqn:Hfrac.
    2: { apply Hnext. intros (_ & e' & b' & ratio' & He' & Hb' & Hdiv' & Hge).
         rewrite He in He'. rewrite Hb in Hb'.
         injection He' as <-. injection Hb' as <-.
         rewrite <- loc_keep_states in Hdiv'. congruence. }
    intros [= <-]. right. exists j, [], js. split; [done|].
    split; [constructor|]. split; [done|]. split; [|done].
    unfold consolidated. rewrite <- loc_keep_states.
    split; [exact Hmin|]. by exists e, b, ratio.
Qed.

Lemma for_j_found (self : frame) (states : list string) (frac : Q)
    (minimum_time i : Z) (s s' : DatetimeHypnogram.search)
    (ranges : list (Z * Z)) :
  DatetimeHypnogram.for_j self (Hypnogram.keep_states self states) frac
    minimum_time i (reverse (index (Hypnogram.keep_states self states))) s
    = Ok s' ->
  i ∈ index (Hypnogram.keep_states self states) ->
  DatetimeHypnogram.k s < i ->
  found self states frac minimum_time s ranges ->
  exists ranges', found self states frac minimum_time s' ranges'.
Proof.
  intros Hrun Hi Hk (Hm & Hall & Hsorted).
  apply for_j_step in Hrun
    as [->|(j & later & earlier & Hjs & Hlater & Hmax & Hcons & ->)].
  - by exists ranges.
  - assert (j ∈ index (Hypnogram.keep_states self states)) as Hj.
    { apply elem_of_reverse. rewrite Hjs, elem_of_app. right. by left. }
    exists (ranges ++ [(i, j)]). split; [|split]; simpl.
    + by rewrite Hm, fmap_app.
    + apply Forall_app. split.
      * eapply Forall_impl; [exact Hall|]. simpl.
        intros r (? & ? & ? & ? & ? & ?).
        split; [done|]. split; [done|]. split; [done|]. split; [lia | done].
      * constructor; [|constructor]. simpl.
        split; [lia|]. split; [done|]. split; [done|].
        split; [lia|]. split; [done|]. by exists later, earlier.
    + apply StronglySorted_app_2; [|done|repeat constructor].
      intros r r' Hr ->%list_elem_of_singleton. simpl.
      rewrite Forall_forall in Hall.
      destruct (Hall r Hr) as (_ & _ & _ & ? & _). lia.
Qed.

Lemma for_i_found (self : frame) (states : list string) (frac : Q)
    (minimum_time : Z) (todo : list Z) (s s' : DatetimeHypnogram.search)
    (ranges : list (Z * Z)) :
  DatetimeHypnogram.for_i self (Hypnogram.keep_states self states) frac
    minimum_time todo s = Ok s' ->
  (forall i, i ∈ todo -> i ∈ index (Hypnogram.keep_states self states)) ->
  found self states frac minimum_time s ranges ->
  exists ranges', found self states frac minimum_time s' ranges'.
Proof.
  revert s ranges. induction todo as [|i todo IH]; intros s ranges Hrun Hin Hf;
    simpl in Hrun.
  - injection Hrun as <-. by exists ranges.
  - assert (forall i', i' ∈ todo ->
              i' ∈ index (Hypnogram.keep_states self states)) as Hin'.
    { intros i' Hi'. apply Hin. by right. }
    destruct (Z.leb_spec i (DatetimeHypnogram.k s)) as [|Hk].
    { by apply (IH s ranges). }
    destruct (DatetimeHypnogram.for_j _ _ _ _ _ _ _) as [s1|] eqn:Hj;
      [|discriminate].
    simpl in Hrun.
    destruct (for_j_found _ _ _ _ _ _ _ ranges Hj) as (ranges1 & Hf1);
      try done.
    + apply Hin. by left.
    + by apply (IH s1 ranges1).
Qed.

Lemma get_consolidated_found (self : frame) (states : list string) (frac : Q)
    (minimum_time : Z) (periods : list frame) :
  DatetimeHypnogram.get_consolidated self states frac minimum_time = Ok periods ->
  exists (s : DatetimeHypnogram.search) (ranges : list (Z * Z)),
    periods = DatetimeHypnogram.matches s /\
    found self states frac minimum_time s ranges.
Proof.
  unfold DatetimeHypnogram.get_consolidated.
  destruct (negb _); [done|].
  destruct (series_min _) as [m|].
  - destruct (DatetimeHypnogram.for_i _ _ _ _ _ _) as [s|] eqn:Hrun; [|done].
    simpl. intros [= <-].
    destruct (for_i_found _ _ _ _ _ _ _ [] Hrun) as (ranges & Hf).
    + done.
    + split; [done|]. split; constructor.
    + by exists s, ranges.
  - intros [= <-]. exists (DatetimeHypnogram.Search 0 []), [].
    split; [done|]. split; [done|]. split; constructor.
Qed.

(** X10: every period that [get_consolidated] returns meets both
    thresholds, read on the period alone: the durations of its bouts of the
    states of interest sum (clamped at zero) to at least [minimum_time], and
    the floating-point quotient of this sum by the span of the period, from
    its earliest start to its latest end, is at least [frac].  The labels of
    the timeline increase, and its durations are within the range in which
    their sums are exact. *)
Theorem get_consolidated_sound (self : frame) (states : list string)
    (frac : Q) (minimum_time : Z) (periods : list frame) (period : frame) :
  StronglySorted Z.lt (index self) ->
  sums_exactly self ->
  DatetimeHypnogram.get_consolidated self states frac minimum_time = Ok periods ->
  period ∈ periods ->
  let time_in_states :=
    Z.max (sum (duration <$> (Hypnogram.keep_states period states).*2)) 0 in
  minimum_time <= time_in_states /\
  exists (e b : Z) (ratio : float),
    series_max (end_time <$> period.*2) = Some e /\
    series_min (start_time <$> period.*2) = Some b /\
    DatetimeHypnogram.true_divide time_in_states (e - b) = Ok ratio /\
    float_ge ratio frac = true.
Proof.
  intros _ _ (s & ranges & -> & Hm & Hall & _)%get_consolidated_found.
  rewrite Hm. intros (r & -> & Hr)%list_elem_of_fmap.
  rewrite Forall_forall in Hall.
  by destruct (Hall r Hr) as (_ & _ & _ & _ & ? & _).
Qed.

Lemma get_consolidated_sound_witness :
  let period := loc aBa 2 2 in
  StronglySorted Z.lt (index aBa) /\
  sums_exactly aBa /\
  seconds 5 <=
    Z.max (sum (duration <$> (Hypnogram.keep_states period ["A"%string]).*2)) 0.
Proof.
  intros period.
  assert (StronglySorted Z.lt (index aBa)) as Hi by apply index_DataFrame_sorted.
  assert (sums_exactly aBa) as Hx by (vm_compute; discriminate).
  assert (DatetimeHypnogram.get_consolidated aBa ["A"%string] (4 # 5)%Q (seconds 5)
          = Ok [loc aBa 0 0; loc aBa 2 2]) as H by reflexivity.
  assert (period ∈ [loc aBa 0 0; loc aBa 2 2]) as Hin by (right; left).
  split; [exact Hi|]. split; [exact Hx|].
  exact (proj1 (get_consolidated_sound _ _ _ _ _ _ Hi Hx H Hin)).
Defined.

(** X11: on a timeline whose labels increase, the periods come in
    ascending order and share no row: every label of a period is below every
    label of the next ones.  Each period is a non-empty run of consecutive
    rows of the timeline, whose rows with the smallest and with the largest
    label are bouts of the states of interest. *)
Theorem get_consolidated_periods (self : frame) (states : list string)
    (frac : Q) (minimum_time : Z) (periods : list frame) :
  StronglySorted Z.lt (index self) ->
  DatetimeHypnogram.get_consolidated self states frac minimum_time = Ok periods ->
  (forall (p q : nat) (a b : frame) (ra rb : row),
     (p < q)%nat -> periods !! p = Some a -> periods !! q = Some b ->
     ra ∈ a -> rb ∈ b -> ra.1 < rb.1) /\
  (forall period, period ∈ periods ->
     period `sublist_of` self /\
     (exists a n : nat, period = take n (drop a self)) /\
     exists first last : row,
       first ∈ period /\ last ∈ period /\
       index_range period = Some (first.1, last.1) /\
       state first.2 ∈ states /\ state last.2 ∈ states).
Proof.
  intros Hidx (s & ranges & -> & Hm & Hall & Hs)%get_consolidated_found.
  rewrite Hm. rewrite Forall_forall in Hall. split.
  - intros p q a b ra rb Hpq Ha Hb Hra Hrb.
    rewrite list_lookup_fmap in Ha, Hb.
    destruct (ranges !! p) as [r|] eqn:Hr; [|done].
    destruct (ranges !! q) as [r'|] eqn:Hr'; [|done].
    injection Ha as <-. injection Hb as <-.
    pose proof (StronglySorted_lookup_lt _ _ _ _ _ _ Hs Hpq Hr Hr') as Hlt.
    simpl in Hlt.
    apply elem_of_bool_filter in Hra as [_ [_ ?%Z.leb_le]%andb_true_iff].
    apply elem_of_bool_filter in Hrb as [_ [?%Z.leb_le _]%andb_true_iff].
    lia.
  - intros period (r & -> & Hr)%list_elem_of_fmap.
    destruct (Hall r Hr) as (Hle & Hi & Hj & _).
    split.
    { unfold loc. rewrite <- getitem_mask_map. apply getitem_mask_sublist. }
    unfold index in Hi, Hj.
    apply list_elem_of_fmap in Hi as (first & Hfirst & [Hf Hfs]%elem_of_keep_states).
    apply list_elem_of_fmap in Hj as (last & Hlast & [Hl Hls]%elem_of_keep_states).
    split.
    { apply list_elem_of_lookup_1 in Hf as [a Ha].
      apply list_elem_of_lookup_1 in Hl as [b Hb].
      exists a, (S b - a)%nat. rewrite Hfirst, Hlast.
      by apply loc_positions. }
    exists first, last. rewrite <- Hfirst, <- Hlast.
    split; [|split; [|split; [|done]]].
    + apply elem_of_bool_filter. split; [done|].
      apply andb_true_iff. rewrite !Z.leb_le. lia.
    + apply elem_of_bool_filter. split; [done|].
      apply andb_true_iff. rewrite !Z.leb_le. lia.
    + apply index_range_loc; [done|..]; unfold index; rewrite list_elem_of_fmap.
      * by exists first.
      * by exists last.
Qed.

Lemma get_consolidated_periods_witness :
  StronglySorted Z.lt (index aBa) /\ loc aBa 2 2 `sublist_of` aBa.
Proof.
  assert (StronglySorted Z.lt (index aBa)) as Hi by apply index_DataFrame_sorted.
  assert (DatetimeHypnogram.get_consolidated aBa ["A"%string] (4 # 5)%Q (seconds 5)
          = Ok [loc aBa 0 0; loc aBa 2 2]) as H by reflexivity.
  assert (loc aBa 2 2 ∈ [loc aBa 0 0; loc aBa 2 2]) as Hin by (right; left).
  split; [exact Hi|].
  exact (proj1 (proj2 (get_consolidated_periods _ _ _ _ _ Hi H) _ Hin)).
Defined.

(** X12: on a timeline whose labels increase and whose durations are
    within the range in which their sums are exact, a returned period is the
    longest one from its start that meets the thresholds: no slice from the
    same start to a later bout of the states of interest meets them, the
    quotient being the floating-point quotient of the code. *)
Theorem get_consolidated_longest (self : frame) (states : list string)
    (frac : Q) (minimum_time : Z) (periods : list frame) (period : frame)
    (i j j' : Z) :
  StronglySorted Z.lt (index self) ->
  sums_exactly self ->
  DatetimeHypnogram.get_consolidated self states frac minimum_time = Ok periods ->
  period ∈ periods ->
  index_range period = Some (i, j) ->
  j < j' ->
  j' ∈ index (Hypnogram.keep_states self states) ->
  ~ consolidated (loc self i j') states frac minimum_time.
Proof.
  intros Hidx _ (s & ranges & -> & Hm & Hall & _)%get_consolidated_found.
  rewrite Hm. intros (r & -> & Hr)%list_elem_of_fmap Hrange Hlt Hj'.
  rewrite Forall_forall in Hall.
  destruct (Hall r Hr) as (Hle & Hi & Hj & _ & _ & later & earlier & Hrev & Hno).
  rewrite index_range_loc in Hrange by eauto using index_keep_states.
  destruct r as [i0 j0]. injection Hrange as -> ->. simpl in *.
  assert (StronglySorted Z.lt (index (Hypnogram.keep_states self states))) as Hs.
  { unfold index. rewrite keep_states_filter.
    apply (StronglySorted_fmap _ (fun x y : row => x.1 < y.1)); [done|].
    by apply StronglySorted_bool_filter, StronglySorted_fmap_inv. }
  rewrite <- (reverse_involutive (index _)), Hrev in Hs, Hj'.
  rewrite reverse_app, reverse_cons, <- app_assoc in Hs, Hj'.
  rewrite Forall_forall in Hno. apply Hno.
  rewrite !elem_of_app in Hj'. destruct Hj' as [Hj'|[Hj'|Hj']].
  - apply StronglySorted_app in Hs as (Hlt' & _ & _).
    specialize (Hlt' j' j Hj'). rewrite elem_of_app in Hlt'.
    specialize (Hlt' ltac:(left; left)). lia.
  - apply list_elem_of_singleton in Hj'. lia.
  - by apply elem_of_reverse.
Qed.

Lemma get_consolidated_longest_witness :
  ~ consolidated (loc aBa 0 2) ["A"%string] (4 # 5)%Q (seconds 5).
Proof.
  assert (sums_exactly aBa) as Hx by (vm_compute; discriminate).
  assert (DatetimeHypnogram.get_consolidated aBa ["A"%string] (4 # 5)%Q (seconds 5)
          = Ok [loc aBa 0 0; loc aBa 2 2]) as H by reflexivity.
  apply (get_consolidated_longest aBa _ _ _ _ (loc aBa 0 0) 0 0 2
           (index_DataFrame_sorted _) Hx H).
  - left.
  - reflexivity.
  - lia.
  - right. left.
Defined.

(** ** When [get_consolidated] fails *)

Lemma series_max_elem (l : list Z) (e : Z) :
  series_max l = Some e -> e ∈ l /\ forall y, y ∈ l -> y <= e.
Proof.
  destruct l as [|x l]; [done|]. intros [= <-]. apply foldr_max_spec.
Qed.

Lemma series_min_elem (l : list Z) (b : Z) :
  series_min l = Some b -> b ∈ l /\ forall y, y ∈ l -> b <= y.
Proof.
  destruct l as [|x l]; [done|]. intros [= <-]. apply foldr_min_spec.
Qed.

Lemma for_j_returns (self bouts : frame) (frac : Q) (minimum_time i : Z)
    (js : list Z) (s : DatetimeHypnogram.search) :
  Forall (fun r => start_time r.2 < end_time r.2) self ->
  exists s', DatetimeHypnogram.for_j self bouts frac minimum_time i js s = Ok s'.
Proof.
  intros Hpos. induction js as [|j js IH]; simpl; [by eexists|].
  destruct (j <? _); [by eexists|].
  destruct (_ <? minimum_time); [by eexists|].
  destruct (series_max _) as [e|] eqn:He; [|done].
  destruct (series_min _) as [b|] eqn:Hb; [|done].
  apply series_max_elem in He as [He _].
  apply series_min_elem in Hb as [_ Hb].
  apply list_elem_of_fmap in He as (x & -> & Hx).
  apply list_elem_of_fmap in Hx as (r & -> & Hr).
  specialize (Hb (start_time r.2)
                ltac:(by apply list_elem_of_fmap_2, list_elem_of_fmap_2)).
  apply elem_of_bool_filter in Hr as [Hr _].
  rewrite Forall_forall in Hpos. specialize (Hpos r Hr).
  unfold DatetimeHypnogram.true_divide.
  destruct (Z.eqb_spec (end_time r.2 - b) 0); [lia|]. simpl.
  destruct (float_ge _ _); [by eexists | done].
Qed.

Lemma for_i_returns (self bouts : frame) (frac : Q) (minimum_time : Z)
    (todo : list Z) (s : DatetimeHypnogram.search) :
  Forall (fun r => start_time r.2 < end_time r.2) self ->
  exists s', DatetimeHypnogram.for_i self bouts frac minimum_time todo s = Ok s'.
Proof.
  intros Hpos. revert s. induction todo as [|i todo IH]; intros s; simpl;
    [by eexists|].
  destruct (i <=? _); [done|].
  destruct (for_j_returns self bouts frac minimum_time i
              (reverse (index bouts)) s Hpos) as [s1 ->].
  simpl. apply IH.
Qed.

(** X13: [get_consolidated] returns on a timeline sorted by [start_time]
    whose bouts all end after they start: the span of a period is never
    zero, so the division cannot fail.  The labels of the timeline increase,
    and its values are within the range in which the sums of durations are
    exact and the differences of time stamps fit in 64 bits. *)
Theorem get_consolidated_returns (self : frame) (states : list string)
    (frac : Q) (minimum_time : Z) :
  StronglySorted Z.lt (index self) ->
  sums_exactly self ->
  spans_fit self ->
  Sorted Z.le (start_time <$> self.*2) ->
  Forall (fun r => start_time r.2 < end_time r.2) self ->
  exists periods,
    DatetimeHypnogram.get_consolidated self states frac minimum_time = Ok periods.
Proof.
  intros _ _ _ Hs%is_monotonic_increasing_Sorted Hpos.
  unfold DatetimeHypnogram.get_consolidated. rewrite Hs. simpl.
  destruct (series_min _) as [m|]; [|by eexists].
  destruct (for_i_returns self (Hypnogram.keep_states self states) frac
              minimum_time (index (Hypnogram.keep_states self states))
              (DatetimeHypnogram.Search (m - 1) []) Hpos) as [s ->].
  by eexists.
Qed.

Lemma get_consolidated_returns_witness :
  exists periods,
    DatetimeHypnogram.get_consolidated abA ["A"%string] (4 # 5)%Q (seconds 5)
      = Ok periods.
Proof.
  apply get_consolidated_returns.
  - apply index_DataFrame_sorted.
  - vm_compute. discriminate.
  - repeat constructor.
  - apply is_monotonic_increasing_Sorted. reflexivity.
  - repeat constructor.
Defined.

(** A bout of no length can make the division fail. *)
Example get_consolidated_zero_span :
  DatetimeHypnogram.get_consolidated instant ["A"%string] (4 # 5)%Q (seconds 0)
    = Raise ZeroDivisionError.
Proof. reflexivity. Qed.

(** X14: when no bout of a sorted timeline has one of the states, and in
    particular on the empty timeline, [get_consolidated] returns the empty
    list. *)
Theorem get_consolidated_no_state (self : frame) (states : list string)
    (frac : Q) (minimum_time : Z) :
  Sorted Z.le (start_time <$> self.*2) ->
  (forall r, r ∈ self -> state r.2 ∉ states) ->
  DatetimeHypnogram.get_consolidated self states frac minimum_time = Ok [].
Proof.
  intros Hs%is_monotonic_increasing_Sorted Hno.
  unfold DatetimeHypnogram.get_consolidated. rewrite Hs. simpl.
  replace (Hypnogram.keep_states self states) with (@nil row); [done|].
  symmetry. apply elem_of_nil_inv. intros r [Hr Hst]%elem_of_keep_states.
  by apply (Hno r).
Qed.

Lemma get_consolidated_no_state_witness :
  DatetimeHypnogram.get_consolidated abA ["REM"%string] (4 # 5)%Q (seconds 5)
    = Ok [].
Proof.
  apply get_consolidated_no_state.
  - apply is_monotonic_increasing_Sorted. reflexivity.
  - intros r Hr Hst. apply list_elem_of_singleton in Hst.
    repeat (apply elem_of_cons in Hr as [->|Hr]; [discriminate|]).
    by apply elem_of_nil in Hr.
Defined.

(** ** Gaps and coverage *)




(** Bouts that do not overlap: each ends no later than the next starts. *)
Lemma no_overlap_strong (self : frame) :
  Forall (fun r => start_time r.2 <= end_time r.2) self ->
  Sorted (fun a b : row => end_time a.2 <= start_time b.2) self ->
  StronglySorted (fun a b : row => end_time a.2 <= start_time b.2) self.
Proof.
  intros Hwf Hs. induction Hs as [|a l Hs IH Hhd]; [constructor|].
  inversion Hwf as [|? ? Ha Hwf']; subst. specialize (IH Hwf').
  constructor; [done|].
  destruct Hhd as [|h l Hah]; [constructor|].
  apply StronglySorted_inv in IH as [_ Hh]. inversion Hwf'; subst.
  constructor; [done|]. eapply Forall_impl; [exact Hh|]. simpl. intros. lia.
Qed.

Lemma covers_time_single (self : frame) (t : Z) :
  Hypnogram.covers_time self [t] = [covers self t].
Proof. by rewrite covers_time_covers. Qed.

(** X16: in a timeline of bouts that do not overlap, the gaps that
    [get_gaps] reports are unscored: no bout covers a time strictly inside a
    reported gap. *)
Theorem gap_is_uncovered (self : frame) (tolerance t : Z)
    (gaps : list Gap.dict) (g : Gap.dict) :
  Forall (fun r => start_time r.2 <= end_time r.2) self ->
  Sorted (fun a b : row => end_time a.2 <= start_time b.2) self ->
  DatetimeHypnogram.get_gaps self tolerance = Ok gaps ->
  g ∈ gaps ->
  Gap.start_time g < t < Gap.end_time g ->
  Hypnogram.covers_time self [t] = [false].
Proof.
  intros Hwf Hs Hgaps Hg Ht. rewrite get_gaps_findGaps in Hgaps.
  injection Hgaps as <-.
  apply elem_of_findGaps in Hg as (i & c & n & Hc & Hn & -> & _). simpl in Ht.
  pose proof (no_overlap_strong self Hwf Hs) as Hss.
  rewrite covers_time_single. f_equal. apply not_true_is_false.
  intros (r & Hr & Hrt)%covers_true. unfold contains in Hrt.
  apply list_elem_of_lookup in Hr as [m Hm].
  rewrite Forall_forall in Hwf.
  pose proof (Hwf c ltac:(by eapply list_elem_of_lookup_2)) as Hwc.
  pose proof (Hwf n ltac:(by eapply list_elem_of_lookup_2)) as Hwn.
  destruct (Nat.lt_total m i) as [Hlt|[->|Hlt]].
  - pose proof (StronglySorted_lookup_lt _ _ _ _ _ _ Hss Hlt Hm Hc). simpl in *. lia.
  - rewrite Hc in Hm. injection Hm as <-. lia.
  - destruct (decide (m = S i)) as [->|Hne].
    + rewrite Hn in Hm. injection Hm as <-. lia.
    + assert (S i < m)%nat as Hlt' by lia.
      pose proof (StronglySorted_lookup_lt _ _ _ _ _ _ Hss Hlt' Hn Hm).
      simpl in *. lia.
Qed.

Lemma gap_is_uncovered_witness :
  Hypnogram.covers_time a_gap_b [seconds 12] = [false].
Proof.
  apply (gap_is_uncovered a_gap_b (seconds 0) (seconds 12)
           [Gap.Dict (seconds 10) (seconds 15) (seconds 5)]
           (Gap.Dict (seconds 10) (seconds 15) (seconds 5))).
  - repeat constructor; vm_compute; discriminate.
  - repeat constructor. vm_compute. discriminate.
  - reflexivity.
  - left.
  - vm_compute. done.
Defined.

Lemma uncovered_findGaps (self : frame) (first final : bout) (t : Z) :
  head self.*2 = Some first ->
  last self.*2 = Some final ->
  start_time first <= t <= end_time final ->
  covers self t = false ->
  exists g, g ∈ findGaps self 0 /\ Gap.start_time g < t < Gap.end_time g.
Proof.
  intros Hfirst Hlast Ht Hcov. revert first Hfirst Ht.
  induction self as [|a [|b self] IH]; intros first Hfirst Ht; [done|..].
  - simpl in *. injection Hfirst as <-. injection Hlast as <-.
    unfold covers in Hcov. simpl in Hcov. unfold containsb in Hcov.
    apply orb_false_iff in Hcov as [Hcov _].
    apply andb_false_iff in Hcov as [?%Z.leb_gt|?%Z.leb_gt]; lia.
  - injection Hfirst as <-.
    change (covers (a :: b :: self) t)
      with (containsb t a || covers (b :: self) t) in Hcov.
    apply orb_false_iff in Hcov as [Ha Hcov].
    unfold containsb in Ha.
    assert (end_time a.2 < t) as Hat.
    { apply andb_false_iff in Ha as [?%Z.leb_gt|?%Z.leb_gt]; lia. }
    rewrite findGaps_cons.
    destruct (Z.lt_ge_cases t (start_time b.2)) as [Hlt|Hge].
    + exists (gap_of a.2 b.2). split; [|simpl; lia].
      rewrite (proj2 (Z.ltb_lt 0 _)) by lia. rewrite elem_of_app. left. by left.
    + destruct (IH ltac:(by rewrite !fmap_cons, last_cons_cons in Hlast) Hcov
                  b.2 eq_refl ltac:(lia)) as (g & Hg & Hgt).
      exists g. split; [|done]. rewrite elem_of_app. by right.
Qed.



(** ** More on [fill_gaps] *)

Lemma Sorted_start_inv (l : list bout) :
  Sorted Z.le (start_time <$> l) ->
  Sorted (fun x y => start_time x <= start_time y) l.
Proof.
  induction l as [|x l IH]; csimpl; [constructor|].
  intros Hs. inversion Hs as [|? ? Hs' Hhd]; subst.
  constructor; [by apply IH|]. destruct l; csimpl in *; [constructor|].
  constructor. by inversion Hhd.
Qed.

Lemma sort_sorted_id (l : list bout) :
  Sorted (fun x y => start_time x <= start_time y) l ->
  foldr insert_bout [] l = l.
Proof.
  induction 1 as [|x l Hl IH Hhd]; simpl; [done|]. rewrite IH.
  destruct Hhd as [|y l' Hxy]; simpl; [done|].
  destruct (Z.leb_spec (start_time x) (start_time y)); [done | lia].
Qed.

Lemma fill_gaps_no_gap (self : frame) (tolerance : Z) (fill_state : string) :
  Sorted Z.le (start_time <$> self.*2) ->
  findGaps self tolerance = [] ->
  DatetimeHypnogram.fill_gaps self tolerance fill_state = Ok (reindex self.*2).
Proof.
  intros Hs Hno. unfold DatetimeHypnogram.fill_gaps.
  rewrite get_gaps_findGaps, Hno. simpl.
  unfold DatetimeHypnogram.sort_values_start_time, DatetimeHypnogram.append.
  rewrite app_nil_r, snd_sort, sort_sorted_id; [done|]. by apply Sorted_start_inv.
Qed.

(** X18: on a timeline whose start times increase, whose bouts end after
    they start, and for a tolerance that is not negative, [fill_gaps] is
    idempotent: filling the filled timeline returns it unchanged.  No two
    rows of the filled timeline start together, so that the second result,
    like the first, does not depend on the sorting algorithm. *)
Theorem fill_gaps_idempotent (self filled : frame) (tolerance : Z)
    (fill_state : string) :
  Sorted Z.lt (start_time <$> self.*2) ->
  Forall (fun r => start_time r.2 < end_time r.2) self ->
  0 <= tolerance ->
  DatetimeHypnogram.fill_gaps self tolerance fill_state = Ok filled ->
  DatetimeHypnogram.fill_gaps filled tolerance fill_state = Ok filled /\
  DatetimeHypnogram.get_gaps filled tolerance = Ok [] /\
  (forall filled',
     sorted_by_start_time (DatetimeHypnogram.append filled []) filled' ->
     filled' = filled).
Proof.
  intros Hs Hwf Htol Hfill.
  assert (Forall (fun r : row => start_time r.2 <= end_time r.2) self) as Hwf'.
  { eapply Forall_impl; [exact Hwf|]. simpl. intros. lia. }
  destruct (fill_gaps_unique self filled tolerance fill_state Hs Hwf Htol Hfill)
    as [Hstrict _].
  rewrite fill_gaps_interleave in Hfill by (done || by apply Sorted_lt_le).
  injection Hfill as Hfilled.
  assert (findGaps filled tolerance = []) as Hno.
  { rewrite (findGaps_ext _ (pair 0 <$> interleave self.*2 tolerance fill_state)).
    - by apply findGaps_interleave.
    - rewrite <- Hfilled, snd_reindex, <- list_fmap_compose.
      symmetry. apply list_fmap_id. }
  assert (DatetimeHypnogram.fill_gaps filled tolerance fill_state = Ok filled)
    as Hagain.
  { rewrite fill_gaps_no_gap; [|by apply Sorted_lt_le|done].
    by rewrite <- Hfilled, snd_reindex. }
  split; [done|]. split; [by rewrite get_gaps_findGaps, Hno|].
  intros filled' Hspec.
  eapply sorted_by_start_time_unique; [|exact Hspec|].
  - unfold DatetimeHypnogram.append, DataFrame, reindex. csimpl.
    rewrite app_nil_r. apply StronglySorted_lt_NoDup.
    apply Sorted_StronglySorted; [intros ???; lia | done].
  - pose proof (sort_values_sorted_by_start_time
                  (DatetimeHypnogram.append filled [])) as Hmodel.
    unfold DatetimeHypnogram.fill_gaps in Hagain.
    rewrite get_gaps_findGaps, Hno in Hagain. simpl in Hagain.
    injection Hagain as Hsort. by rewrite Hsort in Hmodel.
Qed.

Lemma fill_gaps_idempotent_witness :
  exists filled,
    DatetimeHypnogram.fill_gaps a_gap_b (seconds 0) "None" = Ok filled /\
    DatetimeHypnogram.fill_gaps filled (seconds 0) "None" = Ok filled.
Proof.
  eexists. split; [reflexivity|].
  apply (fill_gaps_idempotent a_gap_b).
  - repeat constructor.
  - repeat constructor.
  - vm_compute. discriminate.
  - reflexivity.
Defined.

Lemma last_interleave (bs : list bout) (tolerance : Z) (fill_state : string) :
  last (interleave bs tolerance fill_state) = last bs.
Proof.
  induction bs as [|a [|b bs] IH]; [done|done|].
  rewrite interleave_cons, last_cons_cons.
  pose proof (head_interleave (b :: bs) tolerance fill_state) as Hhd.
  destruct (interleave (b :: bs) tolerance fill_state) as [|c l] eqn:E; [done|].
  rewrite <- IH.
  destruct (tolerance <? _); simpl; by rewrite ?last_cons_cons.
Qed.

(** X19: filled with tolerance zero, a sorted timeline has no unscored
    time left: every time from the start of its first bout to the end of its
    last bout is covered in the filled timeline. *)
Theorem fill_gaps_covers (self filled : frame) (first final : row)
    (fill_state : string) (t : Z) :
  Sorted Z.le (start_time <$> self.*2) ->
  Forall (fun r => start_time r.2 <= end_time r.2) self ->
  DatetimeHypnogram.fill_gaps self 0 fill_state = Ok filled ->
  head self = Some first ->
  last self = Some final ->
  start_time first.2 <= t <= end_time final.2 ->
  Hypnogram.covers_time filled [t] = [true].
Proof.
  intros Hs Hwf Hfill Hfirst Hlast Ht.
  rewrite fill_gaps_interleave in Hfill by done. injection Hfill as <-.
  rewrite covers_time_single. f_equal.
  destruct (covers _ t) eqn:Hcov; [done|].
  destruct (uncovered_findGaps (reindex (interleave self.*2 0 fill_state))
              first.2 final.2 t) as (g & Hg & _); try done.
  - rewrite snd_reindex.
    pose proof (head_interleave self.*2 0 fill_state) as Hhd.
    rewrite Hhd. destruct self; by simplify_eq/=.
  - by rewrite snd_reindex, last_interleave, fmap_last, Hlast.
  - rewrite (findGaps_ext _ (pair 0 <$> interleave self.*2 0 fill_state)) in Hg.
    + rewrite findGaps_interleave in Hg by done. by apply elem_of_nil in Hg.
    + rewrite snd_reindex, <- list_fmap_compose. symmetry. apply list_fmap_id.
Qed.

Lemma fill_gaps_covers_witness :
  exists filled,
    DatetimeHypnogram.fill_gaps a_gap_b 0 "None" = Ok filled /\
    Hypnogram.covers_time filled [seconds 12] = [true].
Proof.
  eexists. split; [reflexivity|].
  apply (fill_gaps_covers a_gap_b _
           (0, Bout "A" (seconds 0) (seconds 10) (seconds 10))
           (1, Bout "B" (seconds 15) (seconds 20) (seconds 5)) "None").
  - apply is_monotonic_increasing_Sorted. reflexivity.
  - repeat constructor; vm_compute; discriminate.
  - reflexivity.
  - reflexivity.
  - reflexivity.
  - vm_compute. split; discriminate.
Defined.



(** ** Loading a Visbrain hypnogram *)

Lemma loc_label_imap {A} (rows : list A) (n p : nat) :
  loc_label (imap (fun q x => (Z.of_nat (n + q), x)) rows) (Z.of_nat (n + p))
  = rows !! p.
Proof.
  revert n p. induction rows as [|x rows IH]; intros n p; [done|].
  rewrite imap_cons. unfold loc_label in *. simpl.
  destruct p as [|p].
  - by rewrite Z.eqb_refl.
  - destruct (Z.eqb_spec (Z.of_nat (n + 0)) (Z.of_nat (n + S p))); [lia|].
    simpl. rewrite <- (IH (S n) p).
    replace (Z.of_nat (n + S p)) with (Z.of_nat (S n + p)) by lia.
    f_equal. f_equal. apply imap_ext. intros q y _. simpl. f_equal. lia.
Qed.

Lemma lookup_visbrain_bouts (fsub : Z -> Z -> Z) (previous : Z)
    (rows : list (string * Z)) (p : nat) :
  visbrain_bouts fsub previous rows !! p
  = (fun row =>
       let s := match p with
                | O => previous
                | S p' => default 0 (snd <$> rows !! p')
                end in
       Bout row.1 s row.2 (fsub row.2 s)) <$> rows !! p.
Proof.
  revert previous p. induction rows as [|row rows IH]; intros previous p; [done|].
  destruct p as [|p]; [done|]. simpl. rewrite IH. by destruct p.
Qed.

Lemma lookup_reindex (bs : list bout) (p : nat) :
  reindex bs !! p = pair (Z.of_nat p) <$> bs !! p.
Proof. unfold reindex. by rewrite list_lookup_imap. Qed.

Lemma load_visbrain_bouts (fsub : Z -> Z -> Z) (rows : list (string * Z)) :
  rows <> [] ->
  load_visbrain_hypnogram fsub rows
  = Some (reindex (visbrain_bouts fsub 0 rows)).
Proof.
  intros Hrows. unfold load_visbrain_hypnogram.
  destruct rows as [|row0 rows0] eqn:Erows; [done|]. rewrite <- Erows. clear Hrows.
  set (df := imap _ rows).
  assert (mapM (_infer_bout_start df) df
          = Some (take (length rows) (0 :: rows.*2))) as ->.
  { apply mapM_Some_2, Forall2_same_length_lookup. split.
    - unfold df. rewrite length_imap, length_take. simpl. rewrite length_fmap. lia.
    - intros p x y Hx Hy. unfold df in Hx.
      rewrite list_lookup_imap in Hx.
      destruct (rows !! p) as [row|] eqn:Hrow; [|done]. injection Hx as <-.
      apply lookup_take_Some in Hy as [Hy _].
      unfold _infer_bout_start. simpl. destruct p as [|p].
      + simpl in Hy. by injection Hy as <-.
      + destruct (Z.eqb_spec (Z.of_nat (S p)) 0); [lia|].
        replace (Z.of_nat (S p) - 1) with (Z.of_nat p) by lia.
        pose proof (loc_label_imap rows 0 p) as Hl. simpl in Hl.
        unfold df. rewrite Hl.
        simpl in Hy. rewrite list_lookup_fmap in Hy.
        destruct (rows !! p) as [row'|]; [|done]. simpl in *. congruence. }
  simpl. f_equal. apply list_eq. intros p.
  rewrite lookup_reindex, lookup_visbrain_bouts, lookup_zip_with.
  unfold df. rewrite list_lookup_imap.
  destruct (rows !! p) as [row|] eqn:Hrow; [|done]. simpl.
  assert (p < length rows)%nat as Hp by (by eapply lookup_lt_Some).
  rewrite lookup_take, decide_True by done. destruct p as [|p]; [done|]. simpl.
  rewrite list_lookup_fmap.
  destruct (rows !! p) as [row'|] eqn:Hrow'; [done|].
  apply lookup_ge_None in Hrow'. lia.
Qed.

Lemma visbrain_bouts_columns (fsub : Z -> Z -> Z) (previous : Z)
    (rows : list (string * Z)) :
  state <$> visbrain_bouts fsub previous rows = rows.*1 /\
  end_time <$> visbrain_bouts fsub previous rows = rows.*2 /\
  start_time <$> visbrain_bouts fsub previous rows
    = take (length rows) (previous :: rows.*2).
Proof.
  revert previous. induction rows as [|row rows IH]; intros previous; [done|].
  destruct (IH row.2) as (Hs & He & Hst). csimpl.
  by rewrite Hs, He, Hst.
Qed.

(** X21: a Visbrain hypnogram is contiguous by construction.  Loading a
    file of at least one row never fails on the missing label; the bouts
    keep the states and end times of the file under the labels 0, 1, ...;
    the first bout starts at 0 and every other bout starts where the bout
    before it ends. *)
Theorem load_visbrain_contiguous (fsub : Z -> Z -> Z) (rows : list (string * Z)) :
  rows <> [] ->
  exists f,
    load_visbrain_hypnogram fsub rows = Some f /\
    index f = Z.of_nat <$> seq 0 (length rows) /\
    state <$> f.*2 = rows.*1 /\
    end_time <$> f.*2 = rows.*2 /\
    start_time <$> f.*2 = take (length rows) (0 :: rows.*2) /\
    (forall (p : nat) (r r' : row),
       f !! p = Some r -> f !! S p = Some r' -> start_time r'.2 = end_time r.2).
Proof.
  intros Hrows. exists (reindex (visbrain_bouts fsub 0 rows)).
  split; [by apply load_visbrain_bouts|].
  destruct (visbrain_bouts_columns fsub 0 rows) as (Hs & He & Hst).
  rewrite snd_reindex, index_reindex.
  split; [by rewrite <- (length_fmap state), Hs, length_fmap|].
  split; [done|]. split; [done|]. split; [done|].
  intros p r r'. rewrite !lookup_reindex, !lookup_visbrain_bouts.
  destruct (rows !! p) as [row|] eqn:Hrow; [|done].
  destruct (rows !! S p) as [row'|]; [|done]. simpl.
  by intros [= <-] [= <-].
Qed.

Lemma load_visbrain_contiguous_witness :
  exists f,
    load_visbrain_hypnogram Z.sub visbrain_rows = Some f /\
    start_time <$> f.*2 = [0; 10; 25].
Proof.
  destruct (load_visbrain_contiguous Z.sub visbrain_rows)
    as (f & Hf & _ & _ & _ & Hst & _); [discriminate|].
  exists f. split; [exact Hf | exact Hst].
Defined.

Lemma findGaps_visbrain (conv : bout -> bout) (fsub : Z -> Z -> Z)
    (previous tolerance : Z) (rows : list (string * Z)) :
  (forall a b, start_time b = end_time a ->
               start_time (conv b) = end_time (conv a)) ->
  0 <= tolerance ->
  findGaps (pair 0 <$> (conv <$> visbrain_bouts fsub previous rows)) tolerance
  = [].
Proof.
  intros Hconv Htol. revert previous.
  induction rows as [|r1 [|r2 rows] IH]; intros previous; [done|done|].
  specialize (IH r1.2).
  change (visbrain_bouts fsub previous (r1 :: r2 :: rows))
    with (Bout r1.1 previous r1.2 (fsub r1.2 previous)
          :: visbrain_bouts fsub r1.2 (r2 :: rows)).
  change (visbrain_bouts fsub r1.2 (r2 :: rows))
    with (Bout r2.1 r1.2 r2.2 (fsub r2.2 r1.2)
          :: visbrain_bouts fsub r2.2 rows) in *.
  csimpl in *. rewrite findGaps_cons, IH. csimpl.
  rewrite (Hconv (Bout r1.1 previous r1.2 (fsub r1.2 previous))
                 (Bout r2.1 r1.2 r2.2 (fsub r2.2 r1.2))) by done.
  rewrite Z.sub_diag. by rewrite (proj2 (Z.ltb_ge _ _)) by lia.
Qed.

(** X22: a Visbrain hypnogram leaves no time unscored: every time from 0 to
    the end time of the last row is covered by a bout. *)
Theorem load_visbrain_covers (fsub : Z -> Z -> Z) (rows : list (string * Z))
    (final : string * Z) (t : Z) :
  last rows = Some final ->
  0 <= t <= final.2 ->
  exists f,
    load_visbrain_hypnogram fsub rows = Some f /\
    Hypnogram.covers_time f [t] = [true].
Proof.
  intros Hlast Ht. exists (reindex (visbrain_bouts fsub 0 rows)).
  split; [apply load_visbrain_bouts; by intros ->|].
  rewrite covers_time_single. f_equal.
  destruct (covers _ t) eqn:Hcov; [done|].
  destruct (visbrain_bouts_columns fsub 0 rows) as (_ & He & Hst).
  destruct (uncovered_findGaps (reindex (visbrain_bouts fsub 0 rows))
              (Bout (default ""%string (fst <$> head rows)) 0
                    (default 0 (snd <$> head rows))
                    (fsub (default 0 (snd <$> head rows)) 0))
              (default (Bout "" 0 0 0) (last (visbrain_bouts fsub 0 rows))) t)
    as (g & Hg & _); try done.
  - rewrite snd_reindex. by destruct rows.
  - rewrite snd_reindex. destruct (last (visbrain_bouts fsub 0 rows)) eqn:E; [done|].
    apply last_None in E. by destruct rows.
  - simpl. split; [lia|].
    assert (last (end_time <$> visbrain_bouts fsub 0 rows) = Some final.2) as Hl.
    { by rewrite He, fmap_last, Hlast. }
    rewrite fmap_last in Hl.
    destruct (last (visbrain_bouts fsub 0 rows)) as [b|]; [|done].
    simpl in *. injection Hl as ->. lia.
  - rewrite (findGaps_ext _ (pair 0 <$> (id <$> visbrain_bouts fsub 0 rows))) in Hg.
    + rewrite findGaps_visbrain in Hg by done. by apply elem_of_nil in Hg.
    + rewrite snd_reindex, list_fmap_id, <- list_fmap_compose.
      symmetry. apply list_fmap_id.
Qed.

Lemma load_visbrain_covers_witness :
  exists f,
    load_visbrain_hypnogram Z.sub visbrain_rows = Some f /\
    Hypnogram.covers_time f [25] = [true].
Proof.
  apply (load_visbrain_covers Z.sub visbrain_rows ("REM"%string, 30)).
  - reflexivity.
  - simpl. lia.
Defined.



(** ** The empty hypnogram *)

(** X24: of an array of at least one time, the empty hypnogram labels the
    times from 0 to [end_time], both included, with ["None"], and no other
    time; it covers exactly these times. *)
Theorem get_empty_hypnogram_labels (end_time' : Z) (times : list Z) :
  times <> [] ->
  Hypnogram.get_states (get_empty_hypnogram end_time') times
    = map (fun t => if (0 <=? t) && (t <=? end_time')
                    then "None"%string else ""%string) times /\
  Hypnogram.covers_time (get_empty_hypnogram end_time') times
    = map (fun t => (0 <=? t) && (t <=? end_time')) times.
Proof.
  intros _. rewrite get_states_label, covers_time_covers. split.
  - apply list_fmap_ext. intros _ t _. unfold label. simpl. unfold containsb.
    simpl. by destruct ((0 <=? t) && (t <=? end_time')).
  - apply list_fmap_ext. intros _ t _. unfold covers. simpl. unfold containsb.
    simpl. apply orb_false_r.
Qed.

Lemma get_empty_hypnogram_labels_witness :
  [-1; 0; 30; 31] <> [] /\
  Hypnogram.get_states (get_empty_hypnogram 30) [-1; 0; 30; 31]
    = [""; "None"; "None"; ""]%string.
Proof.
  assert ([-1; 0; 30; 31] <> []) as H by discriminate.
  split; [exact H|].
  exact (proj1 (get_empty_hypnogram_labels 30 [-1; 0; 30; 31] H)).
Defined.

(** ** Quiet and active wake *)

Lemma zip_wake_columns (fsub : Z -> Z -> Z) (st : string) (l : list (Z * Z)) :
  zip_with (fun se d => Bout st se.1 se.2 d) (zip l.*1 l.*2)
           ((fun interval => fsub interval.2 interval.1) <$> l)
  = (fun interval => Bout st interval.1 interval.2 (fsub interval.2 interval.1))
      <$> l.
Proof. induction l as [|x l IH]; csimpl; [done|]. by rewrite IH. Qed.

Lemma wake_frame_cons (fsub : Z -> Z -> Z) (st : string) (interval : Z * Z)
    (intervals : list (Z * Z)) :
  wake_frame fsub st (interval :: intervals)
  = Ok (DataFrame
          ((fun interval => Bout st interval.1 interval.2
                              (fsub interval.2 interval.1))
             <$> interval :: intervals)).
Proof.
  unfold wake_frame, getitem_column, mbind, result_bind. cbv beta iota.
  by rewrite zip_wake_columns.
Qed.

(** X25: [get_separated_wake_hypnogram] fails with an [IndexError] when
    one of the two lists of intervals is empty. *)
Theorem get_separated_wake_empty (fsub : Z -> Z -> Z)
    (qwk_intervals awk_intervals : list (Z * Z)) :
  qwk_intervals = [] \/ awk_intervals = [] ->
  get_separated_wake_hypnogram fsub qwk_intervals awk_intervals
    = Raise IndexError.
Proof.
  unfold get_separated_wake_hypnogram. intros [->| ->]; [done|].
  destruct qwk_intervals as [|q qs]; [done|]. by rewrite wake_frame_cons.
Qed.

Lemma get_separated_wake_empty_witness :
  get_separated_wake_hypnogram Z.sub [(0, 10)] [] = Raise IndexError.
Proof. apply get_separated_wake_empty. by right. Defined.

Lemma get_separated_wake_sorted (fsub : Z -> Z -> Z)
    (qwk_intervals awk_intervals : list (Z * Z)) :
  qwk_intervals <> [] -> awk_intervals <> [] ->
  exists f,
    get_separated_wake_hypnogram fsub qwk_intervals awk_intervals = Ok f /\
    Sorted Z.le (start_time <$> f.*2) /\
    index f = Z.of_nat <$> seq 0 (length f) /\
    f.*2 ≡ₚ
      ((fun interval => Bout "qWk" interval.1 interval.2
                          (fsub interval.2 interval.1)) <$> qwk_intervals)
      ++ ((fun interval => Bout "aWk" interval.1 interval.2
                             (fsub interval.2 interval.1)) <$> awk_intervals).
Proof.
  intros Hq Ha. unfold get_separated_wake_hypnogram.
  destruct qwk_intervals as [|q qs]; [done|].
  destruct awk_intervals as [|a as']; [done|].
  rewrite !wake_frame_cons. unfold mbind, result_bind. cbv beta iota.
  eexists. split; [reflexivity|].
  split; [apply Sorted_sort_values|].
  unfold DatetimeHypnogram.sort_values_start_time. split.
  - rewrite index_reindex. unfold reindex. by rewrite length_imap.
  - rewrite snd_reindex, snd_sort, sort_Permutation, fmap_app.
    unfold DataFrame. by rewrite !snd_reindex.
Qed.

(** X26: given two non-empty lists of intervals,
    [get_separated_wake_hypnogram] returns a hypnogram sorted by
    [start_time], under the labels 0, 1, ..., with one ["qWk"] bout for each
    quiet interval and one ["aWk"] bout for each active interval, and no
    other bout. *)
Theorem get_separated_wake_bouts (fsub : Z -> Z -> Z)
    (qwk_intervals awk_intervals : list (Z * Z)) :
  qwk_intervals <> [] -> awk_intervals <> [] ->
  exists f,
    get_separated_wake_hypnogram fsub qwk_intervals awk_intervals = Ok f /\
    Sorted Z.le (start_time <$> f.*2) /\
    index f = Z.of_nat <$> seq 0 (length f) /\
    length f = (length qwk_intervals + length awk_intervals)%nat /\
    forall b : bout,
      b ∈ f.*2 <->
      (exists interval, interval ∈ qwk_intervals /\
         b = Bout "qWk" interval.1 interval.2 (fsub interval.2 interval.1)) \/
      (exists interval, interval ∈ awk_intervals /\
         b = Bout "aWk" interval.1 interval.2 (fsub interval.2 interval.1)).
Proof.
  intros Hq Ha.
  destruct (get_separated_wake_sorted fsub _ _ Hq Ha) as (f & Hf & Hs & Hi & Hp).
  exists f. split; [done|]. split; [done|]. split; [done|]. split.
  - by rewrite <- (length_fmap snd f), Hp, length_app, !length_fmap.
  - intros b. rewrite Hp, elem_of_app, !list_elem_of_fmap.
    split; (intros [(x & ? & ?)|(x & ? & ?)]; [left | right]; by exists x).
Qed.

Lemma get_separated_wake_bouts_witness :
  exists f,
    get_separated_wake_hypnogram Z.sub [(20, 30)] [(0, 10)] = Ok f /\
    Sorted Z.le (start_time <$> f.*2).
Proof.
  destruct (get_separated_wake_bouts Z.sub [(20, 30)] [(0, 10)])
    as (f & Hf & Hs & _); [discriminate | discriminate |].
  exists f. split; [exact Hf | exact Hs].
Defined.

(** X27: in the hypnogram of [get_separated_wake_hypnogram] the mask of
    the state ["qWk"] is true exactly at the times that lie in one of the
    quiet intervals, ends included. *)
Theorem get_separated_wake_mask (fsub : Z -> Z -> Z)
    (qwk_intervals awk_intervals : list (Z * Z)) (t : Z) :
  qwk_intervals <> [] -> awk_intervals <> [] ->
  exists f,
    get_separated_wake_hypnogram fsub qwk_intervals awk_intervals = Ok f /\
    (Hypnogram.mask_times_by_state f [t] ["qWk"%string] = [true] <->
     exists interval, interval ∈ qwk_intervals /\ interval.1 <= t <= interval.2).
Proof.
  intros Hq Ha.
  destruct (get_separated_wake_sorted fsub _ _ Hq Ha) as (f & Hf & _ & _ & Hp).
  exists f. split; [done|].
  rewrite mask_times_by_state_covers. simpl.
  assert (forall b, [b] = [true] <-> b = true) as Hsingle
    by (intros b; split; [by intros [= ->] | by intros ->]).
  rewrite Hsingle, covers_true. split.
  - intros (r & [Hr Hst]%elem_of_keep_states & Hc).
    apply list_elem_of_singleton in Hst.
    assert (r.2 ∈ f.*2) as Hb by (by apply list_elem_of_fmap_2).
    rewrite Hp, elem_of_app, !list_elem_of_fmap in Hb.
    destruct Hb as [(x & Hx & Hin)|(x & Hx & Hin)].
    + exists x. split; [done|]. unfold contains in Hc. by rewrite Hx in Hc.
    + rewrite Hx in Hst. discriminate.
  - intros (x & Hx & Hc).
    assert (Bout "qWk" x.1 x.2 (fsub x.2 x.1) ∈ f.*2) as Hb.
    { rewrite Hp, elem_of_app. left. apply list_elem_of_fmap. by exists x. }
    apply list_elem_of_fmap in Hb as (r & Hr & Hin).
    exists r. rewrite elem_of_keep_states, <- Hr. simpl.
    split; [|done]. split; [done|]. by apply list_elem_of_singleton.
Qed.

Lemma get_separated_wake_mask_witness :
  exists f,
    get_separated_wake_hypnogram Z.sub [(20, 30)] [(0, 10)] = Ok f /\
    Hypnogram.mask_times_by_state f [25] ["qWk"%string] = [true].
Proof.
  destruct (get_separated_wake_mask Z.sub [(20, 30)] [(0, 10)] 25)
    as (f & Hf & Hm); [discriminate | discriminate |].
  exists f. split; [exact Hf|]. apply Hm. exists (20, 30).
  split; [left | simpl; lia].
Defined.
